(** * Property validation of the [validate] package

    A shallow embedding of [src/validators.js] (the default validators) and
    [src/property.js] (class [Property]), with the properties stated about
    them in the specification.

    Modelling conventions.
    - JavaScript values are a tree type [value]; objects used as dictionaries
      with string keys are finite maps ([gmap string _]) when only lookup
      matters, and association lists in insertion order when [Object.keys]
      is iterated (the registry of a property).  A lookup [obj[key]] on an
      object literal also finds the members of [Object.prototype]; this is
      modelled where [validate] depends on it (the object [done]), and the
      statements about other lookups name the keys they leave out
      ([on_prototype]).  [Object.keys] lists integer-like keys first; the
      statements about the order of names leave such keys out
      ([integer_like]).
    - The validators table and the messages table of a schema are mutable
      objects shared by reference; they live in a [heap] and are addressed by
      location.
    - Functions supplied by the user (custom validators) are closures that may
      read and write the heap and may throw; they are referred to by
      identifier and interpreted by the [Host] environment.
    - A regular expression is a mutable object: [test] reads and writes its
      [lastIndex] (flags [g] and [y]), which lives in the heap as well.
    - Code that can throw or change the heap is written in the monad [M]
      (state and exceptions).  Every application of a validator function is
      recorded in a ghost trace, so that "which validator ran, on what, in
      which order" is observable.
    - The arguments of validators follow the types of the JSDoc comments
      (a boolean, a type name, a rules object with numeric bounds, an array,
      a regular expression); numbers are integers.
    - The methods [schema], [each] and [path] of [Property] only forward to
      class [Schema], which is not among the sources; they are left out. *)

From Stdlib Require Import ZArith Ascii String.
From stdpp Require Import gmap strings pretty list.

Set Warnings "-register-all".

Local Open Scope string_scope.
Local Open Scope list_scope.
Local Open Scope Z_scope.

(** ** Values *)

(** A regular expression and a function value are opaque host objects. *)
Inductive regexp := RegExp (id : nat).

Inductive value :=
| VUndefined
| VNull
| VBool (b : bool)
| VNum (n : Z)
| VStr (s : string)
| VArr (items : list value)
| VObj (fields : list (string * value))
| VDate (ms : Z)
| VRegExp (r : regexp)
| VFun (id : nat) (arity : nat).

(** [value == null] *)
Definition is_nullish (v : value) : bool :=
  match v with
  | VUndefined | VNull => true
  | _ => false
  end.

(** The argument stored with a registered validator.  The builders of
    [Property] pass a boolean ([required]), a type name ([type]), a rules
    object with optional numeric [min] and [max] ([length]), an array
    ([enum]), a regular expression ([match]) or [null] ([use]). *)
Inductive argument :=
| ArgUndefined
| ArgNull
| ArgBool (b : bool)
| ArgString (s : string)
| ArgRules (min max : option Z)
| ArgArray (items : list value)
| ArgRegExp (r : regexp).

(** The functions of [validators.js], as first-class values. *)
Inductive builtin := BRequired | BNonempty | BType | BLength | BEnum | BMatch.

(** A function value found in a validators table or given to [use]. *)
Inductive fnval :=
| Builtin (b : builtin)
| Closure (id : nat).

(** A message template: a string, or a function of [(path, arg)]. *)
Inductive template :=
| TString (s : string)
| TFunction (id : nat).

(** Truthiness of a template, as tested by [||]: the empty string is falsy. *)
Definition template_truthy (t : template) : bool :=
  match t with
  | TString s => negb (String.eqb s "")
  | TFunction _ => true
  end.

(** ** Exceptions and results *)

Inductive exn :=
| TypeError (what : string)
| Thrown (v : value).

Inductive res (A : Type) :=
| Ret (a : A)
| Raise (e : exn).
Arguments Ret {A} a.
Arguments Raise {A} e.

Definition res_bind {A B} (r : res A) (k : A -> res B) : res B :=
  match r with
  | Ret a => k a
  | Raise e => Raise e
  end.

(** ** The heap of shared tables *)

Definition loc := positive.

Record heap := Heap {
  validator_tables : gmap loc (gmap string fnval);
  message_tables : gmap loc (gmap string template);
  (** [lastIndex] of the regular expressions, [0] when absent *)
  last_indices : gmap nat N
}.

(** [table[key]] on the validators table at [l]. *)
Definition read_validator (h : heap) (l : loc) (key : string) : option fnval :=
  validator_tables h !! l ≫= fun t => t !! key.

(** [table[key]] on the messages table at [l]. *)
Definition read_message (h : heap) (l : loc) (key : string) : option template :=
  message_tables h !! l ≫= fun t => t !! key.

(** [table[key] = f], in place. *)
Definition write_validator (l : loc) (key : string) (f : fnval) (h : heap) : heap :=
  Heap (<[l := <[key := f]> (default ∅ (validator_tables h !! l))]> (validator_tables h))
       (message_tables h) (last_indices h).

(** [table[key] = t], in place. *)
Definition write_message (l : loc) (key : string) (t : template) (h : heap) : heap :=
  Heap (validator_tables h)
       (<[l := <[key := t]> (default ∅ (message_tables h !! l))]> (message_tables h))
       (last_indices h).

(** [regexp.lastIndex] *)
Definition last_index (h : heap) (r : regexp) : N :=
  match r with RegExp id => default 0%N (last_indices h !! id) end.

(** [regexp.lastIndex = n] *)
Definition set_last_index (r : regexp) (n : N) (h : heap) : heap :=
  match r with
  | RegExp id => Heap (validator_tables h) (message_tables h) (<[id := n]> (last_indices h))
  end.

(** ** The host environment *)

Class Host := {
  (** a custom validator [fn.call(ctx, value, ctx, arg)]: the truthiness of
      what it returns (or what it throws), and the heap it leaves *)
  closure_call : nat -> value -> value -> argument -> heap -> res bool * heap;
  (** a message generator [message(path, arg)] *)
  template_call : nat -> string -> argument -> string;
  (** [RegExp.prototype.test] on a regular expression whose [lastIndex] is
      the given number: whether the value, coerced to a string, matches (or
      what the coercion throws), and the [lastIndex] the call leaves; without
      the flags [g] and [y] that is the one it found *)
  regexp_test : regexp -> value -> N -> res bool * N;
  (** [String.prototype.includes] *)
  string_includes : string -> value -> res bool;
  (** [Array.prototype.toString] *)
  array_to_string : list value -> string;
  (** the [typecast] package *)
  typecast_prim : value -> string -> value
}.

(** ** The monad of effectful code *)

(** One application of a validator function: the registry name it ran for,
    the function, the [(value, ctx, arg)] it received and what came out. *)
Record invocation := Invoke {
  inv_type : string;
  inv_fn : fnval;
  inv_value : value;
  inv_ctx : value;
  inv_arg : argument;
  inv_result : res bool
}.

Record world := World {
  store : heap;
  calls : list invocation
}.

Definition M (A : Type) : Type := world -> res A * world.

Definition ret {A} (a : A) : M A := fun w => (Ret a, w).

Definition throw {A} (e : exn) : M A := fun w => (Raise e, w).

Definition bind {A B} (m : M A) (k : A -> M B) : M B :=
  fun w =>
    match m w with
    | (Ret a, w') => k a w'
    | (Raise e, w') => (Raise e, w')
    end.

Notation "'let*' x := m 'in' k" := (bind m (fun x => k))
  (at level 10, x name, m at level 100, k at level 200).

(** Read the heap. *)
Definition get_heap : M heap := fun w => (Ret (store w), w).

(** Lift a computation that can only throw. *)
Definition lift_res {A} (r : res A) : M A := fun w => (r, w).

(** ** Type classification *)

(** Modelled from the spec: the type classifier ([component-type], an
    external package), restricted to the kinds of [value]. *)
Definition typeOf (v : value) : string :=
  match v with
  | VUndefined => "undefined"
  | VNull => "null"
  | VBool _ => "boolean"
  | VNum _ => "number"
  | VStr _ => "string"
  | VArr _ => "array"
  | VObj _ => "object"
  | VDate _ => "date"
  | VRegExp _ => "regexp"
  | VFun _ _ => "function"
  end.

(** [value.length]: [None] stands for [undefined].  It throws on [null] and
    [undefined].  A length that is not a number is read as [undefined]; the
    statements that compare a length with a bound are about values whose
    length is absent or a number ([plain_length]). *)
Definition length_prop (v : value) : res (option Z) :=
  match v with
  | VUndefined | VNull => Raise (TypeError "Cannot read property 'length'")
  | VStr s => Ret (Some (Z.of_nat (String.length s)))
  | VArr items => Ret (Some (Z.of_nat (List.length items)))
  | VFun _ arity => Ret (Some (Z.of_nat arity))
  | VObj fields =>
      match List.find (fun kv => String.eqb (fst kv) "length") fields with
      | Some (_, VNum n) => Ret (Some n)
      | _ => Ret None
      end
  | _ => Ret None
  end.

(** [Array.prototype.includes] compares with SameValueZero: primitives by
    value; two objects are the same only if they are one object, which a
    tree of values cannot express, so objects never compare equal. *)
Definition same_value_zero (a b : value) : bool :=
  match a, b with
  | VUndefined, VUndefined => true
  | VNull, VNull => true
  | VBool x, VBool y => Bool.eqb x y
  | VNum x, VNum y => Z.eqb x y
  | VStr x, VStr y => String.eqb x y
  | _, _ => false
  end.

(** ** Objects with string keys, in insertion order *)

Section Dict.
Context {A : Type}.

(** [obj[key]] *)
Fixpoint obj_get (key : string) (o : list (string * A)) : option A :=
  match o with
  | [] => None
  | (k, x) :: o' => if String.eqb key k then Some x else obj_get key o'
  end.

(** [obj[key] = x]: an existing key keeps its place, a new key goes last.
    (For a key that is integer-like, or [__proto__], an object literal does
    otherwise; the statements about the place of a new key are about plain
    keys, see [plain_name] below.) *)
Fixpoint obj_set (key : string) (x : A) (o : list (string * A)) : list (string * A) :=
  match o with
  | [] => [(key, x)]
  | (k, y) :: o' =>
      if String.eqb key k then (k, x) :: o' else (k, y) :: obj_set key x o'
  end.

(** [Object.keys(obj)] *)
Definition Object_keys (o : list (string * A)) : list string := map fst o.
End Dict.

(** The names of the members of [Object.prototype], which a lookup on an
    object literal finds when the object has no property of that name.  All
    of them are truthy. *)
Definition object_prototype_names : list string :=
  ["constructor"; "__defineGetter__"; "__defineSetter__"; "hasOwnProperty";
   "__lookupGetter__"; "__lookupSetter__"; "isPrototypeOf"; "propertyIsEnumerable";
   "toString"; "valueOf"; "__proto__"; "toLocaleString"].

Definition on_prototype (key : string) : bool :=
  existsb (String.eqb key) object_prototype_names.

Definition is_digit (c : ascii) : bool :=
  (48 <=? nat_of_ascii c)%nat && (nat_of_ascii c <=? 57)%nat.

Fixpoint all_digits (s : string) : bool :=
  match s with
  | EmptyString => true
  | String c s' => is_digit c && all_digits s'
  end.

(** A key written with decimal digits only.  The keys that [Object.keys]
    lists first, in numeric order, are among these. *)
Definition integer_like (key : string) : bool :=
  negb (String.eqb key "") && all_digits key.

(** A key that an object literal treats as it treats most: it names no
    member of [Object.prototype] and is not integer-like. *)
Definition plain_name (key : string) : bool :=
  negb (on_prototype key) && negb (integer_like key).

(** ** validators.js *)

Module Validators.
Section WithHost.
Context `{Host}.

(** Validates presence. *)
Definition required (value ctx : value) (required : argument) : res bool :=
  match required with
  | ArgBool false => Ret true
  | _ => Ret (negb (is_nullish value))
  end.

(** Validates non-emptiness, by the classified type of the value. *)
Definition nonempty (value ctx : value) (nonempty : argument) : res bool :=
  match nonempty with
  | ArgBool false => Ret true
  | _ =>
      let t := typeOf value in
      if String.eqb t "string" || String.eqb t "array" then
        res_bind (length_prop value) (fun len =>
          Ret (match len with Some n => 0 <? n | None => false end))
      else if String.eqb t "object" then
        Ret (match value with
             | VObj fields => (0 <? Z.of_nat (List.length (Object_keys fields)))
             | _ => false
             end)
      else Ret (negb (is_nullish value))
  end.

(** Validates type: [typeOf(value) == name].  A name that is not a string
    is coerced by [==]; only an array can then equal a type name. *)
Definition type (value ctx : value) (name : argument) : res bool :=
  match name with
  | ArgString s => Ret (String.eqb (typeOf value) s)
  | ArgArray items => Ret (String.eqb (typeOf value) (array_to_string items))
  | _ => Ret false
  end.

(** [bound && value.length < bound]: a bound that is absent or [0] is
    falsy, and then [value.length] is not read. *)
Definition below (value : value) (bound : option Z) : res bool :=
  match bound with
  | Some b =>
      if b =? 0 then Ret false
      else res_bind (length_prop value) (fun len =>
             Ret (match len with Some n => n <? b | None => false end))
  | None => Ret false
  end.

(** [bound && value.length > bound] *)
Definition above (value : value) (bound : option Z) : res bool :=
  match bound with
  | Some b =>
      if b =? 0 then Ret false
      else res_bind (length_prop value) (fun len =>
             Ret (match len with Some n => b <? n | None => false end))
  | None => Ret false
  end.

(** Validates length. *)
Definition length (value ctx : value) (rules : argument) : res bool :=
  match rules with
  | ArgUndefined | ArgNull => Raise (TypeError "Cannot destructure property 'min'")
  | ArgRules min max =>
      res_bind (below value min) (fun lt =>
        if lt then Ret false
        else res_bind (above value max) (fun gt =>
          if gt then Ret false else Ret true))
  | _ => Ret true
  end.

(** Validates enums. *)
Definition enum (value ctx : value) (enums : argument) : res bool :=
  match enums with
  | ArgArray items => Ret (existsb (same_value_zero value) items)
  | ArgString s => string_includes s value
  | _ => Raise (TypeError "enums.includes is not a function")
  end.

(** Validates against given [regexp]: [regexp.test(value)], which reads the
    [lastIndex] of the regular expression and may write it. *)
Definition match_ (value ctx : value) (regexp : argument) (h : heap) : res bool * heap :=
  match regexp with
  | ArgRegExp r =>
      let (found, index) := regexp_test r value (last_index h r) in
      (found, if N.eqb index (last_index h r) then h else set_last_index r index h)
  | _ => (Raise (TypeError "regexp.test is not a function"), h)
  end.

(** Application of a default validator.  All but [match] leave the heap as
    it is. *)
Definition apply (b : builtin) (value ctx : value) (a : argument) (h : heap)
    : res bool * heap :=
  match b with
  | BRequired => (required value ctx a, h)
  | BNonempty => (nonempty value ctx a, h)
  | BType => (type value ctx a, h)
  | BLength => (length value ctx a, h)
  | BEnum => (enum value ctx a, h)
  | BMatch => match_ value ctx a h
  end.

(** The exported table: [module.exports = Validators]. *)
Definition table : gmap string fnval :=
  list_to_map [("required", Builtin BRequired); ("nonempty", Builtin BNonempty);
               ("type", Builtin BType); ("length", Builtin BLength);
               ("enum", Builtin BEnum); ("match", Builtin BMatch)].
End WithHost.
End Validators.

(** The body of a function value, applied to [(value, ctx, arg)] with
    [this = ctx]: a default validator, or a closure, which does what the
    host says. *)
Definition apply_fn `{Host} (f : fnval) (value ctx : value) (a : argument) (h : heap)
    : res bool * heap :=
  match f with
  | Builtin b => Validators.apply b value ctx a h
  | Closure id => closure_call id value ctx a h
  end.

Definition not_callable : exn :=
  TypeError "Cannot read property 'call' of undefined".

(** [validator.call(ctx, value, ctx, arg)], returning the truthiness of the
    result.  Calling [undefined] is a TypeError. *)
Definition call `{Host} (type : string) (validator : option fnval)
    (value ctx : value) (a : argument) : M bool :=
  match validator with
  | None => throw not_callable
  | Some f => fun w =>
      let (r, h) := apply_fn f value ctx a (store w) in
      (r, World h (calls w ++ [Invoke type f value ctx a r])%list)
  end.

(** An [Error] with its [path]. *)
Record error := Error {
  err_message : string;
  err_path : string
}.

(** The fields of a schema object that a property reads: references to its
    messages table and to its validators table. *)
Module Schema.
Record t := Make {
  messages : loc;
  validators : loc
}.
End Schema.

(** ** property.js *)

Module Property.

(** A registry entry [{ arg, fn }]; [fn] is [None] when it is undefined. *)
Record entry := Entry {
  arg : argument;
  fn : option fnval
}.

Record t := Make {
  name : string;
  registry : list (string * entry);
  _schema : Schema.t;
  _type : option string;
  messages : loc;
  validators : loc
}.

Definition constructor (name : string) (schema : Schema.t) : t :=
  {| name := name;
     registry := [];
     _schema := schema;
     _type := None;
     messages := Schema.messages schema;
     validators := Schema.validators schema |}.

(** Register validator. *)
Definition _register (this : t) (type : string) (a : argument) (f : option fnval) : t :=
  {| name := name this;
     registry := obj_set type (Entry a f) (registry this);
     _schema := _schema this;
     _type := _type this;
     messages := messages this;
     validators := validators this |}.

(** Validate using named functions from the given object.  A property of
    [fns] whose value is [null] or [undefined] is [None]. *)
Definition use (this : t) (fns : list (string * option fnval)) : t :=
  fold_left (fun this kv => _register this (fst kv) ArgNull (snd kv)) fns this.

(** [required(bool = true)]: an omitted argument is [None]. *)
Definition required (this : t) (bool : option bool) : t :=
  _register this "required" (ArgBool (default true bool)) None.

Definition type (this : t) (type : string) : t :=
  _register {| name := name this;
               registry := registry this;
               _schema := _schema this;
               _type := Some type;
               messages := messages this;
               validators := validators this |}
            "type" (ArgString type) None.

Definition length (this : t) (min max : option Z) : t :=
  _register this "length" (ArgRules min max) None.

Definition enum (this : t) (enums : list value) : t :=
  _register this "enum" (ArgArray enums) None.

Definition match_ (this : t) (regexp : regexp) : t :=
  _register this "match" (ArgRegExp regexp) None.

Section WithHost.
Context `{Host}.

(** Typecast given [value]. *)
Definition typecast (this : t) (value : value) :=
  match _type this with
  | Some ty => if String.eqb ty "" then value else typecast_prim value ty
  | None => value
  end.

(** Create an error.  A message generator is taken as the specification
    types it, a function from [(path, arg)] to a string. *)
Definition _error (this : t) (type : string) (a : argument) (path : string) : M error :=
  let* h := get_heap in
  let message :=
    match read_message h (messages this) type with
    | Some m => if template_truthy m then Some m
                else read_message h (messages this) "default"
    | None => read_message h (messages this) "default"
    end in
  let message :=
    match message with
    | Some (TFunction id) => template_call id path a
    | Some (TString s) => s
    | None => ""
    end in
  ret (Error message path).

(** Run validator of given [type]; [None] is [undefined].  The lookups
    [this.registry[type]] and [this.validators[type]] are those of the
    properties the two objects have themselves; [validate] runs [_run] on
    [required], on [type] and on keys of the registry that [Object.prototype]
    does not have, for which nothing is inherited. *)
Definition _run (this : t) (type : string) (value ctx : value) (path : string)
    : M (option error) :=
  match obj_get type (registry this) with
  | None => ret None
  | Some (Entry a f) =>
      let* h := get_heap in
      let validator :=
        match f with
        | Some f => Some f
        | None => read_validator h (validators this) type
        end in
      let* valid := call type validator value ctx a in
      if negb valid then
        let* err := _error this type a path in ret (Some err)
      else ret None
  end.

(** The truthiness of [done[type]], where [done] is an object literal: it
    is truthy for a name assigned [true], and also for the name of a member
    of [Object.prototype], which the lookup finds through the prototype. *)
Definition is_done (done : gmap string bool) (type : string) : bool :=
  match done !! type with
  | Some b => b
  | None => on_prototype type
  end.

(** The loop of [validate] over the remaining [types]. *)
Fixpoint run_rest (this : t) (done : gmap string bool) (types : list string)
    (value ctx : value) (path : string) : M (option error) :=
  match types with
  | [] => ret None
  | type :: types' =>
      if is_done done type then
        run_rest this done types' value ctx path
      else
        let* err := _run this type value ctx path in
        match err with
        | Some e => ret (Some e)
        | None => run_rest this done types' value ctx path
        end
  end.

(** Validate given [value]; the result [None] is [false].  An omitted
    [path] is [None] and defaults to the name of the property. *)
Definition validate (this : t) (value ctx : value) (path : option string)
    : M (option error) :=
  let path := default (name this) path in
  let types := Object_keys (registry this) in
  let done : gmap string bool := ∅ in
  (* Required first *)
  let* err := _run this "required" value ctx path in
  match err with
  | Some e => ret (Some e)
  | None =>
      (* No need to continue if value is null-ish *)
      if is_nullish value then ret None
      else
        (* Run type second *)
        let* err := _run this "type" value ctx path in
        match err with
        | Some e => ret (Some e)
        | None =>
            let done := <["required" := true]> done in
            let done := <["type" := true]> done in
            run_rest this done types value ctx path
        end
  end.
End WithHost.
End Property.

(** ** The order of evaluation *)

Section EvaluationOrder.
Context `{Host}.

(** Whether a validator of that name is registered on the property. *)
Definition registered (this : Property.t) (type : string) : bool :=
  match obj_get type (Property.registry this) with
  | Some _ => true
  | None => false
  end.

(** The names the loop of [validate] runs: the keys of the registry that
    [done] does not hold, that is, neither [required] nor [type] nor the
    name of a member of [Object.prototype]. *)
Definition others (this : Property.t) : list string :=
  List.filter (fun ty => negb (String.eqb ty "required") && negb (String.eqb ty "type")
                         && negb (on_prototype ty))
              (Object_keys (Property.registry this)).

(** The validators a call evaluates when none fails: [required] first;
    nothing more for a null or undefined value; otherwise [type], then the
    names of the loop. *)
Definition evaluation_order (this : Property.t) (value : value) : list string :=
  (if registered this "required" then ["required"] else []) ++
  (if is_nullish value then []
   else (if registered this "type" then ["type"] else []) ++ others this).

(** The order as the specification words it: [required]; nothing more for
    a null or undefined value; otherwise [type], then "every other
    registered validator in registration order". *)
Definition registration_order (this : Property.t) (value : value) : list string :=
  (if registered this "required" then ["required"] else []) ++
  (if is_nullish value then []
   else (if registered this "type" then ["type"] else []) ++
        List.filter (fun ty => negb (String.eqb ty "required") && negb (String.eqb ty "type"))
                    (Object_keys (Property.registry this))).

(** Run the validators named by [types] one after the other, stopping at
    the first failure. *)
Fixpoint run_in_order (this : Property.t) (types : list string)
    (value ctx : value) (path : string) : M (option error) :=
  match types with
  | [] => ret None
  | type :: types' =>
      let* err := Property._run this type value ctx path in
      match err with
      | Some e => ret (Some e)
      | None => run_in_order this types' value ctx path
      end
  end.

(** The function a registry entry resolves to in heap [h]: its own [fn],
    else the entry of the shared validators table. *)
Definition resolve_validator (this : Property.t) (h : heap) (type : string)
    (e : Property.entry) : option fnval :=
  match Property.fn e with
  | Some f => Some f
  | None => read_validator h (Property.validators this) type
  end.

(** The template [_error] selects for [type] in heap [h]: the entry of
    that name when it is truthy, else the [default] entry. *)
Definition selected_template (this : Property.t) (h : heap) (type : string)
    : option template :=
  match read_message h (Property.messages this) type with
  | Some m => if template_truthy m then Some m
              else read_message h (Property.messages this) "default"
  | None => read_message h (Property.messages this) "default"
  end.

(** The message string of the [Error] made from a template; with no
    template at all the message of the [Error] is empty. *)
Definition render (m : option template) (path : string) (a : argument) : string :=
  match m with
  | Some (TFunction id) => template_call id path a
  | Some (TString s) => s
  | None => ""
  end.

(** An application that returned a truthy value. *)
Definition passed (i : invocation) : Prop := inv_result i = Ret true.

(** An application made for [this] on [(value, ctx)]: it received them,
    with the argument registered under its name. *)
Definition invoked_for (this : Property.t) (value ctx : value) (i : invocation) : Prop :=
  inv_value i = value /\ inv_ctx i = ctx /\
  exists e, obj_get (inv_type i) (Property.registry this) = Some e /\
            inv_arg i = Property.arg e.

(** The error the property makes for a failed application, in heap [h]. *)
Definition error_of (this : Property.t) (h : heap) (path : string) (i : invocation) : error :=
  Error (render (selected_template this h (inv_type i)) path (inv_arg i)) path.

(** How a run over the names [expected] can end, given the applications
    [new] it made and the heap [h] it left: with success after all of them
    passed; with the error of the last application, the first that failed;
    or with an exception, thrown by the last application or raised because
    the next name has no function to call. *)
Definition outcome (this : Property.t) (path : string) (expected : list string)
    (h : heap) (new : list invocation) (r : res (option error)) : Prop :=
  match r with
  | Ret None => map inv_type new = expected /\ Forall passed new
  | Ret (Some e) =>
      map inv_type new `prefix_of` expected /\
      exists pre i, new = pre ++ [i] /\ Forall passed pre /\
                    inv_result i = Ret false /\ e = error_of this h path i
  | Raise x =>
      map inv_type new `prefix_of` expected /\
      ((Forall passed new /\ x = not_callable /\
        exists ty e, (map inv_type new ++ [ty]) `prefix_of` expected /\
                     obj_get ty (Property.registry this) = Some e /\
                     resolve_validator this h ty e = None)
       \/ (exists pre i, new = pre ++ [i] /\ Forall passed pre /\ inv_result i = Raise x))
  end.

(** An application that returned a falsy value. *)
Definition failed (i : invocation) : bool :=
  match inv_result i with
  | Ret false => true
  | _ => false
  end.

(** The part of the trace a computation added. *)
Definition added (w w' : world) : list invocation :=
  drop (List.length (calls w)) (calls w').

(** A function that, applied with the argument [a], leaves every heap as
    it found it. *)
Definition preserves_heap (f : fnval) (a : argument) : Prop :=
  forall value ctx h, snd (apply_fn f value ctx a h) = h.

(** The validators in use on the property, in heap [h], write nothing: the
    function each registered name resolves to leaves the heap as it is. *)
Definition quiet (this : Property.t) (h : heap) : Prop :=
  forall ty e g,
    obj_get ty (Property.registry this) = Some e ->
    resolve_validator this h ty e = Some g ->
    preserves_heap g (Property.arg e).

(** An application of the function that its name resolves to in heap
    [h]. *)
Definition resolved (this : Property.t) (h : heap) (i : invocation) : Prop :=
  exists e, obj_get (inv_type i) (Property.registry this) = Some e /\
            resolve_validator this h (inv_type i) e = Some (inv_fn i).

(** A regular expression whose [lastIndex] no [test] moves: one without
    the flags [g] and [y]. *)
Definition stateless_regexp (r : regexp) : Prop :=
  forall value index, snd (regexp_test r value index) = index.

(** A registry entry that uses a default validator of [validators.js]
    which keeps no state: no closure, and [match] only with a stateless
    regular expression. *)
Definition steady (h : heap) (this : Property.t) (kv : string * Property.entry) : Prop :=
  match resolve_validator this h (fst kv) (snd kv) with
  | Some (Closure _) => False
  | Some (Builtin BMatch) =>
      forall r, Property.arg (snd kv) = ArgRegExp r -> stateless_regexp r
  | _ => True
  end.

Definition steady_builtins (h : heap) (this : Property.t) : Prop :=
  Forall (steady h this) (Property.registry this).

(** The messages table at [l] holds strings only, no message generator. *)
Definition string_templates (h : heap) (l : loc) : Prop :=
  forall name id, read_message h l name <> Some (TFunction id).
End EvaluationOrder.

(** The [length] of the value is absent or a number, so that comparing it
    with a bound coerces nothing. *)
Definition plain_length (v : value) : bool :=
  match v with
  | VObj fields =>
      match List.find (fun kv => String.eqb (fst kv) "length") fields with
      | Some (_, VNum _) | None => true
      | Some _ => false
      end
  | _ => true
  end.

(** The properties of a schema: made by the constructor with that schema
    and configured through the builder methods. *)
Inductive built (schema : Schema.t) : Property.t -> Prop :=
| built_constructor name :
    built schema (Property.constructor name schema)
| built_use p fns :
    built schema p -> built schema (Property.use p fns)
| built_required p bool :
    built schema p -> built schema (Property.required p bool)
| built_type p type :
    built schema p -> built schema (Property.type p type)
| built_length p min max :
    built schema p -> built schema (Property.length p min max)
| built_enum p enums :
    built schema p -> built schema (Property.enum p enums)
| built_match p regexp :
    built schema p -> built schema (Property.match_ p regexp).

(** ** Validation of an object against a schema *)

(** Modelled from the spec: [Schema.validate] and the nested field accessor
    (the file that defines class [Schema] and the dot-path package are not
    among the sources).  Section 4.2 of the specification: options are
    merged, unknown keys are stripped, every declared path is read (a [$]
    segment standing for each element of an array), the value is typecast
    when asked, the property validates it, and the failures are collected in
    path declaration order. *)
Module SchemaModel.

Record options := Options {
  typecast : bool;
  strip : bool
}.

Record t := Make {
  tables : Schema.t;
  props : list (string * Property.t);
  opts : options
}.

(** Call-time options are merged over the defaults of the schema. *)
Definition merge (defaults : options) (typecast' strip' : option bool) : options :=
  Options (default (typecast defaults) typecast') (default (strip defaults) strip').

Fixpoint segments_from (s cur : string) : list string :=
  match s with
  | EmptyString => [cur]
  | String c s' =>
      if Ascii.eqb c "."%char then cur :: segments_from s' ""
      else segments_from s' (cur +:+ String c "")
  end.

(** The segments of a dot-delimited path. *)
Definition segments (path : string) : list string := segments_from path "".

Definition extend (prefix seg : string) : string :=
  if String.eqb prefix "" then seg else prefix +:+ "." +:+ seg.

(** One segment of a read: it indexes into a mapping or a sequence. *)
Definition field (v : value) (seg : string) : value :=
  match v with
  | VObj fields => default VUndefined (obj_get seg fields)
  | VArr items =>
      default VUndefined
        (snd <$> List.find (fun ix => String.eqb (pretty (fst ix)) seg)
                           (imap pair items))
  | _ => VUndefined
  end.

(** The values a declared path addresses in [v], each with its path; an
    element rule applies to every index of the array when it is present. *)
Fixpoint resolve (segs : list string) (v : value) (prefix : string)
    : list (string * value) :=
  match segs with
  | [] => [(prefix, v)]
  | seg :: segs' =>
      if String.eqb seg "$" then
        match v with
        | VArr items =>
            concat (imap (fun i x => resolve segs' x (extend prefix (pretty i))) items)
        | _ => []
        end
      else resolve segs' (field v seg) (extend prefix seg)
  end.

(** A write by path; a missing intermediate segment makes it a no-op. *)
Fixpoint assign_path (segs : list string) (new v : value) : value :=
  match segs with
  | [] => new
  | seg :: segs' =>
      match v with
      | VObj fields =>
          match obj_get seg fields, segs' with
          | Some x, _ => VObj (obj_set seg (assign_path segs' new x) fields)
          | None, [] => VObj (obj_set seg new fields)
          | None, _ => v
          end
      | VArr items =>
          VArr (imap (fun i x => if String.eqb (pretty i) seg
                                 then assign_path segs' new x else x) items)
      | _ => v
      end
  end.

(** The declared paths that continue below segment [seg]. *)
Definition beneath (seg : string) (paths : list (list string)) : list (list string) :=
  omap (fun p => match p with
                 | s :: p' => if String.eqb s seg then Some p' else None
                 | [] => None
                 end) paths.

Definition goes_deeper (paths : list (list string)) : bool :=
  existsb (fun p => match p with [] => false | _ => true end) paths.

(** The fields that stay when an object is stripped: a key that no declared
    path covers is removed; what is under a key that stays is stripped by
    [strip] where declared paths go deeper. *)
Fixpoint strip_fields (strip : list (list string) -> value -> value)
    (paths : list (list string)) (fields : list (string * value))
    : list (string * value) :=
  match fields with
  | [] => []
  | (k, x) :: fields' =>
      let sub := beneath k paths in
      match sub with
      | [] => strip_fields strip paths fields'
      | _ => (k, if goes_deeper sub then strip sub x else x)
             :: strip_fields strip paths fields'
      end
  end.

(** Stripping: a key that no declared path covers is removed, recursively
    where the schema mounts nested paths. *)
Fixpoint strip_value (paths : list (list string)) (v : value) {struct v} : value :=
  match v with
  | VObj fields => VObj (strip_fields strip_value paths fields)
  | VArr items =>
      let sub := beneath "$" paths in
      VArr (map (fun x => if goes_deeper sub then strip_value sub x else x) items)
  | _ => v
  end.

Section WithHost.
Context `{Host}.

(** One property against the values its path addresses. *)
Fixpoint validate_targets (prop : Property.t) (targets : list (string * value))
    (obj : value) (cast : bool) : M (list error * value) :=
  match targets with
  | [] => ret ([], obj)
  | (path, v) :: targets' =>
      let v' := if cast then Property.typecast prop v else v in
      let obj' := if cast then assign_path (segments path) v' obj else obj in
      let* err := Property.validate prop v' obj' (Some path) in
      let* r := validate_targets prop targets' obj' cast in
      ret (match err with Some e => e :: fst r | None => fst r end, snd r)
  end.

(** Every declared path in turn; a failure does not stop the walk. *)
Fixpoint validate_paths (props : list (string * Property.t)) (obj : value)
    (cast : bool) : M (list error * value) :=
  match props with
  | [] => ret ([], obj)
  | (path, prop) :: props' =>
      let* r := validate_targets prop (resolve (segments path) obj "") obj cast in
      let* r' := validate_paths props' (snd r) cast in
      ret ((fst r ++ fst r')%list, snd r')
  end.

(** [validate(obj, opts)]: the ordered list of failures, and the object as
    stripping and typecasting left it. *)
Definition validate (s : t) (obj : value) (typecast' strip' : option bool)
    : M (list error * value) :=
  let o := merge (opts s) typecast' strip' in
  let obj := if strip o then strip_value (map (fun kv => segments (fst kv)) (props s)) obj
             else obj in
  validate_paths (props s) obj (typecast o).
End WithHost.
End SchemaModel.

(** ** Primitive values and truthy bounds *)

(** The values that [Array.prototype.includes] compares by value. *)
Definition is_primitive (v : value) : bool :=
  match v with
  | VUndefined | VNull | VBool _ | VNum _ | VStr _ => true
  | _ => false
  end.

(** A bound of a rules object that [&&] takes as present: a number other
    than [0]. *)
Definition truthy_bound (bound : option Z) : bool :=
  match bound with
  | Some b => negb (b =? 0)
  | None => false
  end.

(** ** Properties configured with the typed builders *)

(** The properties made by the constructor and configured through
    [required], [type], [length] and [enum] only. *)
Inductive configured (schema : Schema.t) : Property.t -> Prop :=
| configured_constructor name :
    configured schema (Property.constructor name schema)
| configured_required p bool :
    configured schema p -> configured schema (Property.required p bool)
| configured_type p type :
    configured schema p -> configured schema (Property.type p type)
| configured_length p min max :
    configured schema p -> configured schema (Property.length p min max)
| configured_enum p enums :
    configured schema p -> configured schema (Property.enum p enums).

(** A binding as those builders make it: no function of its own, and the
    kind of argument that goes with the name. *)
Definition typed_binding (kv : string * Property.entry) : bool :=
  match Property.fn (snd kv), Property.arg (snd kv) with
  | None, ArgBool _ => String.eqb (fst kv) "required"
  | None, ArgString _ => String.eqb (fst kv) "type"
  | None, ArgRules _ _ => String.eqb (fst kv) "length"
  | None, ArgArray _ => String.eqb (fst kv) "enum"
  | _, _ => false
  end.

(** The validators table at [l] is the default one of [validators.js]. *)
Definition default_validators (h : heap) (l : loc) : Prop :=
  forall name, read_validator h l name = Validators.table !! name.

(** ** A concrete environment *)

(** A host with four closures, two message generators and two regular
    expressions, a schema whose validators table is the default one, and a
    few properties; the examples below are evaluated in it. *)
Module Example.

(** Closure 0 rejects every value, closure 1 accepts every value, closure 2
    accepts and, as a side effect, rewrites the [default] message of the
    table at location 2; any other closure throws.  The regular expression
    1 is [/./g]: in a string it looks for a character from [lastIndex] on
    and moves [lastIndex] past it, or back to [0] when there is none.  Any
    other regular expression is [/./], which leaves [lastIndex] alone.  A
    value that is not a string is coerced first: the empty array to the
    empty string; an object whose [toString] is not a function cannot be
    coerced, and the test throws; for the remaining values this host lets
    the test succeed and leave [lastIndex] alone. *)
Definition host : Host := {|
  closure_call := fun id value ctx a h =>
    match id with
    | 0%nat => (Ret false, h)
    | 1%nat => (Ret true, h)
    | 2%nat => (Ret true, write_message 2%positive "default" (TString "changed") h)
    | _ => (Raise (Thrown VNull), h)
    end;
  template_call := fun id path a =>
    match id with
    | 0%nat => path +:+ " is required"
    | _ => path +:+ " is not valid"
    end;
  regexp_test := fun r value index =>
    match value with
    | VStr s =>
        match r with
        | RegExp 1 =>
            if (index <? N.of_nat (String.length s))%N then (Ret true, (index + 1)%N)
            else (Ret false, 0%N)
        | RegExp _ => (Ret (negb (String.eqb s "")), index)
        end
    | VArr [] => (Ret false, match r with RegExp 1 => 0%N | RegExp _ => index end)
    | VObj fields =>
        match obj_get "toString" fields with
        | Some (VFun _ _) | None => (Ret true, index)
        | Some _ => (Raise (TypeError "Cannot convert object to primitive value"), index)
        end
    | _ => (Ret true, index)
    end;
  string_includes := fun s value => Ret false;
  array_to_string := fun items => "";
  typecast_prim := fun value ty => value
|}.

(** The messages table is at location 2, the validators table at 1. *)
Definition schema : Schema.t := Schema.Make 2%positive 1%positive.

Definition messages : gmap string template :=
  list_to_map [("default", TString "validation failed");
               ("required", TFunction 0);
               ("type", TFunction 1)].

Definition heap0 : heap :=
  Heap {[ 1%positive := Validators.table ]} {[ 2%positive := messages ]} ∅.

Definition world0 : world := World heap0 [].

(** The same schema with a messages table of strings. *)
Definition heap1 : heap :=
  Heap {[ 1%positive := Validators.table ]}
       {[ 2%positive := {[ "default" := TString "validation failed" ]} ]} ∅.

Definition world1 : world := World heap1 [].

(** [new Property('title', schema).required().type('string').length({min: 2, max: 5})] *)
Definition title : Property.t :=
  Property.length
    (Property.type (Property.required (Property.constructor "title" schema) None) "string")
    (Some 2) (Some 5).

(** [title.use({ hex: undefined })]: a name with no function anywhere. *)
Definition title_hex : Property.t := Property.use title [("hex", None)].

(** [new Property('nick', schema).type('string').length({min: 2}).required(false)] *)
Definition nick : Property.t :=
  Property.required
    (Property.length (Property.type (Property.constructor "nick" schema) "string")
                     (Some 2) None)
    (Some false).



(** [title.use({ toString: () => false })]: a function that rejects every
    value, under a name that [Object.prototype] has too. *)
Definition title_strict : Property.t :=
  Property.use title [("toString", Some (Closure 0))].

(** A schema with the two properties above and the default options. *)
Definition post : SchemaModel.t :=
  SchemaModel.Make schema [("title", title); ("nick", nick)]
                   (SchemaModel.Options false true).

End Example.

(** * Properties *)

(** ** Objects in insertion order *)

Section DictFacts.
Context {A : Type}.
Implicit Types (o : list (string * A)) (k : string) (x : A).

Lemma obj_get_set_eq k x o : obj_get k (obj_set k x o) = Some x.
Proof.
  induction o as [|[k' y] o IH]; simpl.
  - by rewrite String.eqb_refl.
  - destruct (String.eqb k k') eqn:E; simpl; rewrite E; [done | exact IH].
Qed.

Lemma obj_get_set_ne k k' x o : k <> k' -> obj_get k' (obj_set k x o) = obj_get k' o.
Proof.
  intros Hne. induction o as [|[k0 y] o IH]; simpl.
  - destruct (String.eqb_spec k' k); congruence.
  - destruct (String.eqb_spec k k0) as [->|]; simpl.
    + destruct (String.eqb_spec k' k0); congruence.
    + destruct (String.eqb_spec k' k0); [done | exact IH].
Qed.

Lemma obj_get_Some_keys k x o : obj_get k o = Some x -> k ∈ Object_keys o.
Proof.
  induction o as [|[k' y] o IH]; simpl; [done |].
  destruct (String.eqb_spec k k') as [->|]; intros Hg.
  - apply list_elem_of_here.
  - apply list_elem_of_further, IH, Hg.
Qed.

Lemma obj_get_None_keys k o : obj_get k o = None <-> k ∉ Object_keys o.
Proof.
  induction o as [|[k' y] o IH]; simpl.
  - split; [intros _; apply not_elem_of_nil | done].
  - rewrite not_elem_of_cons. destruct (String.eqb_spec k k') as [->|].
    + split; [done | intros [? _]; done].
    + rewrite IH. tauto.
Qed.

(** Assigning to a key that exists leaves the keys as they are. *)
Lemma keys_set_present k x o : k ∈ Object_keys o -> Object_keys (obj_set k x o) = Object_keys o.
Proof.
  induction o as [|[k' y] o IH]; simpl.
  - intros Hin. by apply elem_of_nil in Hin.
  - destruct (String.eqb_spec k k') as [->|]; [done |].
    intros Hin. apply elem_of_cons in Hin as [?|Hin]; [done |].
    simpl. f_equal. by apply IH.
Qed.

(** Assigning to a new key adds it after all the others. *)
Lemma keys_set_absent k x o : k ∉ Object_keys o -> Object_keys (obj_set k x o) = Object_keys o ++ [k].
Proof.
  induction o as [|[k' y] o IH]; simpl; [done |].
  rewrite not_elem_of_cons. intros [Hne Hin].
  destruct (String.eqb_spec k k'); [done |].
  simpl. f_equal. by apply IH.
Qed.

End DictFacts.

(** ** Running one validator *)

Section RunFacts.
Context `{Host}.
Implicit Types (p : Property.t) (w : world) (ty path : string) (v ctx : value).

Lemma _error_eq p ty a path w :
  Property._error p ty a path w
  = (Ret (Error (render (selected_template p (store w) ty) path a) path), w).
Proof. reflexivity. Qed.

Lemma _run_unregistered p ty v ctx path w :
  obj_get ty (Property.registry p) = None ->
  Property._run p ty v ctx path w = (Ret None, w).
Proof. intros Hg. unfold Property._run. by rewrite Hg. Qed.

Lemma _run_no_function p ty e v ctx path w :
  obj_get ty (Property.registry p) = Some e ->
  resolve_validator p (store w) ty e = None ->
  Property._run p ty v ctx path w = (Raise not_callable, w).
Proof.
  intros Hg Hr. unfold Property._run. rewrite Hg. destruct e as [a f].
  unfold resolve_validator in Hr. simpl in Hr.
  unfold bind, get_heap. destruct f as [f|]; [done |]. by rewrite Hr.
Qed.

Lemma _run_applied p ty e g r h v ctx path w :
  obj_get ty (Property.registry p) = Some e ->
  resolve_validator p (store w) ty e = Some g ->
  apply_fn g v ctx (Property.arg e) (store w) = (r, h) ->
  Property._run p ty v ctx path w =
    let i := Invoke ty g v ctx (Property.arg e) r in
    let w1 := World h (calls w ++ [i]) in
    match r with
    | Ret true => (Ret None, w1)
    | Ret false => (Ret (Some (error_of p h path i)), w1)
    | Raise x => (Raise x, w1)
    end.
Proof.
  intros Hg Hr Ha. unfold Property._run. rewrite Hg. destruct e as [a f].
  unfold resolve_validator in Hr. simpl in *.
  unfold bind at 1, get_heap.
  assert (match f with Some f0 => Some f0 | None => read_validator (store w) (Property.validators p) ty end = Some g) as ->.
  { by destruct f. }
  unfold bind, call. rewrite Ha.
  destruct r as [[|]|x]; reflexivity.
Qed.

(** ** Running validators in order *)

Lemma run_in_order_outcome p v ctx path types : forall w,
  exists new,
    calls (snd (run_in_order p types v ctx path w)) = calls w ++ new /\
    Forall (invoked_for p v ctx) new /\
    outcome p path (List.filter (registered p) types)
            (store (snd (run_in_order p types v ctx path w))) new
            (fst (run_in_order p types v ctx path w)).
Proof.
  induction types as [|ty types IH]; intros w; simpl.
  - exists []. rewrite app_nil_r. repeat split; constructor.
  - unfold bind, registered.
    destruct (obj_get ty (Property.registry p)) as [e|] eqn:Hg.
    2:{ rewrite (_run_unregistered _ _ _ _ _ _ Hg). apply IH. }
    destruct (resolve_validator p (store w) ty e) as [g|] eqn:Hr.
    2:{ rewrite (_run_no_function _ _ _ _ _ _ _ Hg Hr). simpl.
        exists []. rewrite app_nil_r. split; [done |]. split; [constructor |].
        split; [apply prefix_nil |]. left. split; [constructor |]. split; [done |].
        exists ty, e. simpl. split; [| done].
        apply prefix_cons, prefix_nil. }
    destruct (apply_fn g v ctx (Property.arg e) (store w)) as [r h] eqn:Ha.
    rewrite (_run_applied _ _ _ _ _ _ _ _ _ _ Hg Hr Ha). simpl.
    set (i := Invoke ty g v ctx (Property.arg e) r).
    assert (invoked_for p v ctx i) as Hi.
    { repeat split; eauto. }
    destruct r as [[|]|x].
    + destruct (IH (World h (calls w ++ [i]))) as (new & Hc & Hf & Ho).
      exists (i :: new). simpl in Hc. rewrite Hc, <- app_assoc. split; [done |].
      split; [by constructor |].
      destruct (fst (run_in_order p types v ctx path (World h (calls w ++ [i]))))
        as [[err|]|x]; simpl in *.
      * destruct Ho as (Hp & pre & j & -> & Hpre & Hj & He).
        split; [by apply prefix_cons |].
        exists (i :: pre), j. repeat split; try done. by constructor.
      * destruct Ho as [Hm Hall]. split; [by rewrite Hm | by constructor].
      * destruct Ho as (Hp & Ho). split; [by apply prefix_cons |].
        destruct Ho as [(Hall & -> & ty' & e' & Hp' & Hg' & Hr')|(pre & j & -> & Hpre & Hj)].
        -- left. split; [by constructor |]. split; [done |].
           exists ty', e'. split; [by apply prefix_cons | done].
        -- right. exists (i :: pre), j. repeat split; try done. by constructor.
    + exists [i]. simpl. split; [done |]. split; [by constructor |].
      split; [apply prefix_cons, prefix_nil |].
      exists [], i. repeat split; try done.
    + exists [i]. simpl. split; [done |]. split; [by constructor |].
      split; [apply prefix_cons, prefix_nil |].
      right. exists [], i. repeat split; try done.
Qed.
End RunFacts.

(** ** [validate] as a run over the names it evaluates *)

Section ValidateFacts.
Context `{Host}.
Implicit Types (p : Property.t) (w : world) (ty : string) (v ctx : value).

(** The loop skips exactly the names that [done] holds. *)
Lemma run_rest_filter p (done : gmap string bool) v ctx path types : forall w,
  Property.run_rest p done types v ctx path w
  = run_in_order p (List.filter (fun ty => negb (Property.is_done done ty)) types)
                 v ctx path w.
Proof.
  induction types as [|ty types IH]; intros w; simpl; [done |].
  destruct (Property.is_done done ty); simpl; [apply IH |].
  unfold bind. destruct (Property._run p ty v ctx path w) as [[[e|]|x] w1]; [done | apply IH | done].
Qed.

Lemma done_required_type ty :
  Property.is_done (<["type" := true]> (<["required" := true]> (∅ : gmap string bool))) ty
  = String.eqb ty "required" || String.eqb ty "type" || on_prototype ty.
Proof.
  unfold Property.is_done.
  destruct (String.eqb_spec ty "type") as [->|Hty].
  { by rewrite lookup_insert_eq, orb_true_r. }
  rewrite lookup_insert_ne by done.
  destruct (String.eqb_spec ty "required") as [->|Hre].
  { by rewrite lookup_insert_eq. }
  rewrite lookup_insert_ne by done. by rewrite lookup_empty.
Qed.

Lemma validate_run_in_order p v ctx path w :
  Property.validate p v ctx path w
  = run_in_order p (if is_nullish v then ["required"] else "required" :: "type" :: others p)
                 v ctx (default (Property.name p) path) w.
Proof.
  unfold Property.validate. destruct (is_nullish v) eqn:Hn; simpl; unfold bind.
  - destruct (Property._run p "required" v ctx _ w) as [[[e|]|x] w1]; done.
  - destruct (Property._run p "required" v ctx _ w) as [[[e|]|x] w1]; try done.
    destruct (Property._run p "type" v ctx _ w1) as [[[e|]|x] w2]; try done.
    rewrite run_rest_filter. f_equal. unfold others.
    apply filter_ext. intros ty. rewrite done_required_type.
    by destruct (String.eqb ty "required"), (String.eqb ty "type"), (on_prototype ty).
Qed.

Lemma registered_key p ty : ty ∈ Object_keys (Property.registry p) -> registered p ty = true.
Proof.
  intros Hin. unfold registered.
  destruct (obj_get ty (Property.registry p)) eqn:Hg; [done |].
  by apply obj_get_None_keys in Hg.
Qed.

Lemma registered_Some p ty e :
  obj_get ty (Property.registry p) = Some e -> registered p ty = true.
Proof. intros Hg. unfold registered. by rewrite Hg. Qed.

Lemma filter_registered_others p : List.filter (registered p) (others p) = others p.
Proof.
  apply forallb_filter_id. apply forallb_forall. intros ty Hin.
  apply filter_In in Hin as [Hin _].
  apply registered_key, list_elem_of_In, Hin.
Qed.

Lemma filter_registered_order p v :
  List.filter (registered p)
              (if is_nullish v then ["required"] else "required" :: "type" :: others p)
  = evaluation_order p v.
Proof.
  unfold evaluation_order. destruct (is_nullish v); simpl.
  - by destruct (registered p "required").
  - rewrite filter_registered_others.
    by destruct (registered p "required"), (registered p "type").
Qed.

(** The applications a call of [validate] makes, and how it ends. *)
Lemma validate_outcome p v ctx path w :
  exists new,
    calls (snd (Property.validate p v ctx path w)) = calls w ++ new /\
    Forall (invoked_for p v ctx) new /\
    outcome p (default (Property.name p) path) (evaluation_order p v)
            (store (snd (Property.validate p v ctx path w))) new
            (fst (Property.validate p v ctx path w)).
Proof.
  rewrite validate_run_in_order, <- filter_registered_order.
  apply run_in_order_outcome.
Qed.
(** Names that are not registered play no part in a run. *)
Lemma run_in_order_registered p v ctx path types : forall w,
  run_in_order p types v ctx path w
  = run_in_order p (List.filter (registered p) types) v ctx path w.
Proof.
  induction types as [|ty types IH]; intros w; simpl; [done |].
  unfold registered at 1.
  destruct (obj_get ty (Property.registry p)) as [e|] eqn:Hg.
  - simpl. unfold bind.
    destruct (Property._run p ty v ctx path w) as [[[err|]|x] w1]; [done | apply IH | done].
  - unfold bind. rewrite (_run_unregistered _ _ _ _ _ _ Hg). apply IH.
Qed.

Lemma validate_evaluation_order_eq p v ctx path w :
  Property.validate p v ctx path w
  = run_in_order p (evaluation_order p v) v ctx (default (Property.name p) path) w.
Proof.
  by rewrite validate_run_in_order, run_in_order_registered, filter_registered_order.
Qed.

Lemma added_app w w' new : calls w' = calls w ++ new -> added w w' = new.
Proof. intros Hc. unfold added. rewrite Hc. apply drop_app_length. Qed.

(** The first name of the order, when it has a function, is applied
    first. *)
Lemma validate_first_application p v ctx path w ty rest e g :
  evaluation_order p v = ty :: rest ->
  obj_get ty (Property.registry p) = Some e ->
  resolve_validator p (store w) ty e = Some g ->
  exists r new,
    calls (snd (Property.validate p v ctx path w))
    = calls w ++ Invoke ty g v ctx (Property.arg e) r :: new.
Proof.
  intros Hord Hg Hr.
  destruct (apply_fn g v ctx (Property.arg e) (store w)) as [r h] eqn:Ha.
  exists r. rewrite validate_evaluation_order_eq, Hord. simpl. unfold bind.
  rewrite (_run_applied p ty e g r h v ctx _ w Hg Hr Ha). simpl.
  destruct r as [[|]|x]; simpl; [| by exists [] | by exists []].
  destruct (run_in_order_outcome p v ctx (default (Property.name p) path) rest
              (World h (calls w ++ [Invoke ty g v ctx (Property.arg e) (Ret true)])))
    as (new & Hc & _).
  exists new. rewrite Hc. simpl. by rewrite <- app_assoc.
Qed.
End ValidateFacts.

(** ** The evaluation order *)

Section OrderFacts.
Implicit Types (p : Property.t) (v : value) (ty : string).

Lemma others_spec p ty :
  ty ∈ others p <->
  ty ∈ Object_keys (Property.registry p) /\ ty <> "required" /\ ty <> "type" /\
  on_prototype ty = false.
Proof.
  unfold others. rewrite list_elem_of_In, filter_In, <- list_elem_of_In.
  rewrite !andb_true_iff, !negb_true_iff.
  destruct (String.eqb_spec ty "required"), (String.eqb_spec ty "type");
    (split; [intros (? & (? & ?) & ?) | intros (? & ? & ? & ?)]); done.
Qed.


Lemma count_others_required p : count_occ string_dec (others p) "required" = 0%nat.
Proof.
  apply count_occ_not_In. rewrite <- list_elem_of_In, others_spec. intros (_ & ? & _). done.
Qed.

Lemma count_others_type p : count_occ string_dec (others p) "type" = 0%nat.
Proof.
  apply count_occ_not_In. rewrite <- list_elem_of_In, others_spec. intros (_ & _ & ? & _). done.
Qed.

(** [required] stands once in the order when it is registered. *)
Lemma count_order_required p v :
  count_occ string_dec (evaluation_order p v) "required"
  = if registered p "required" then 1%nat else 0%nat.
Proof.
  unfold evaluation_order. rewrite count_occ_app.
  assert (count_occ string_dec
            (if is_nullish v then []
             else (if registered p "type" then ["type"] else []) ++ others p) "required" = 0%nat) as ->.
  { destruct (is_nullish v); [done |]. rewrite count_occ_app, count_others_required.
    by destruct (registered p "type"). }
  by destruct (registered p "required").
Qed.

(** [type] stands once in the order when it is registered and the value
    is not null or undefined. *)
Lemma count_order_type p v :
  count_occ string_dec (evaluation_order p v) "type"
  = if registered p "type" && negb (is_nullish v) then 1%nat else 0%nat.
Proof.
  unfold evaluation_order. rewrite count_occ_app.
  assert (count_occ string_dec (if registered p "required" then ["required"] else []) "type" = 0%nat) as ->.
  { by destruct (registered p "required"). }
  destruct (is_nullish v); simpl.
  - by rewrite andb_false_r.
  - rewrite count_occ_app, count_others_type, andb_true_r.
    by destruct (registered p "type").
Qed.

Lemma count_prefix (l1 l2 : list string) ty :
  l1 `prefix_of` l2 -> (count_occ string_dec l1 ty <= count_occ string_dec l2 ty)%nat.
Proof. intros [k ->]. rewrite count_occ_app. lia. Qed.

Lemma order_nullish p v ty :
  is_nullish v = true -> ty ∈ evaluation_order p v -> ty = "required".
Proof.
  intros Hn. unfold evaluation_order. rewrite Hn, app_nil_r.
  destruct (registered p "required"); intros Hin.
  - by apply list_elem_of_singleton in Hin.
  - by apply elem_of_nil in Hin.
Qed.


(** A registered name that [Object.prototype] does not have is in the
    order of a value that is not null. *)
Lemma order_registered p v ty :
  is_nullish v = false -> registered p ty = true -> on_prototype ty = false ->
  ty ∈ evaluation_order p v.
Proof.
  intros Hn Hreg Hproto. unfold evaluation_order. rewrite Hn.
  destruct (String.eqb_spec ty "required") as [->|Hre].
  { rewrite Hreg. apply elem_of_app. left. apply list_elem_of_here. }
  apply elem_of_app. right.
  destruct (String.eqb_spec ty "type") as [->|Hty].
  { rewrite Hreg. apply list_elem_of_here. }
  apply elem_of_app. right. apply others_spec. split; [| done].
  unfold registered in Hreg.
  destruct (obj_get ty (Property.registry p)) eqn:Hg; [| done].
  by eapply obj_get_Some_keys.
Qed.
End OrderFacts.

(** ** The contract of [Property.validate] *)

Section ValidateContract.
Context `{Host}.
Implicit Types (p : Property.t) (w : world) (ty : string) (v ctx : value).

Lemma outcome_prefix p path expected h new r :
  outcome p path expected h new r -> map inv_type new `prefix_of` expected.
Proof.
  destruct r as [[e|]|x]; simpl.
  - by intros [? _].
  - by intros [-> _].
  - by intros [? _].
Qed.

(** When no registered name is the name of a member of [Object.prototype],
    the loop runs every registered name other than [required] and
    [type]. *)
Lemma plain_order p v :
  Forall (fun ty => plain_name ty = true) (Object_keys (Property.registry p)) ->
  evaluation_order p v = registration_order p v.
Proof.
  intros Hplain. unfold evaluation_order, registration_order, others.
  f_equal. destruct (is_nullish v); [done |]. f_equal.
  apply filter_ext_in. intros ty Hin.
  rewrite Forall_forall in Hplain. specialize (Hplain ty (proj2 (list_elem_of_In _ _) Hin)).
  unfold plain_name in Hplain. apply andb_true_iff in Hplain as [Hp _].
  rewrite Hp. apply andb_true_r.
Qed.

Lemma passed_not_failed (pre : list invocation) :
  Forall passed pre -> List.filter failed pre = [].
Proof.
  intros Hpre. induction Hpre as [|i pre Hi _ IH]; [done |].
  simpl. unfold failed. rewrite Hi. exact IH.
Qed.

(** X18. On a property whose registered names are plain (no name of a
    member of [Object.prototype], no integer-like name), [validate]
    applies the validators in the order of the specification: [required]
    first; nothing else for a null or undefined value; otherwise [type],
    then every other registered name in registration order, up to the
    first application that does not pass.  Each application receives the
    value, the context and the argument registered under its name.  When
    the call returns [false], every name of that order was applied; when
    it returns an error, the last application is the first that failed.
    [required] and [type] are applied at most once each. *)
Theorem validate_registration_order p v ctx path w :
  Forall (fun ty => plain_name ty = true) (Object_keys (Property.registry p)) ->
  exists new,
    calls (snd (Property.validate p v ctx path w)) = calls w ++ new /\
    Forall (invoked_for p v ctx) new /\
    map inv_type new `prefix_of` registration_order p v /\
    (fst (Property.validate p v ctx path w) = Ret None ->
     map inv_type new = registration_order p v) /\
    (forall e, fst (Property.validate p v ctx path w) = Ret (Some e) ->
       exists pre i, new = pre ++ [i] /\ Forall passed pre /\ inv_result i = Ret false) /\
    (is_nullish v = true -> Forall (fun i => inv_type i = "required") new) /\
    (count_occ string_dec (map inv_type new) "required" <= 1)%nat /\
    (count_occ string_dec (map inv_type new) "type" <= 1)%nat /\
    (forall e g,
       obj_get "required" (Property.registry p) = Some e ->
       resolve_validator p (store w) "required" e = Some g ->
       exists i rest, new = i :: rest /\ inv_type i = "required" /\ inv_fn i = g).
Proof.
  intros Hplain.
  destruct (validate_outcome p v ctx path w) as (new & Hc & Hf & Ho).
  exists new. split; [done |]. split; [done |].
  pose proof (outcome_prefix _ _ _ _ _ _ Ho) as Hp.
  rewrite <- (plain_order p v Hplain).
  split; [done |]. split; [| split; [| split; [| split; [| split]]]].
  - intros Hr. rewrite Hr in Ho. by destruct Ho as [-> _].
  - intros e Hr. rewrite Hr in Ho. destruct Ho as (_ & pre & i & -> & Hpre & Hi & _).
    by exists pre, i.
  - intros Hn. apply Forall_forall. intros i Hi.
    apply (order_nullish p v); [done |].
    eapply elem_of_prefix; [| exact Hp].
    apply list_elem_of_fmap. by exists i.
  - etrans; [apply count_prefix, Hp |]. rewrite count_order_required.
    destruct (registered p "required"); lia.
  - etrans; [apply count_prefix, Hp |]. rewrite count_order_type.
    destruct (registered p "type" && negb (is_nullish v)); lia.
  - intros e g Hg Hr.
    assert (exists rest, evaluation_order p v = "required" :: rest) as [rest Hord].
    { unfold evaluation_order. rewrite (registered_Some _ _ _ Hg). by eexists. }
    destruct (validate_first_application p v ctx path w _ _ _ _ Hord Hg Hr)
      as (r & new' & Hc').
    rewrite Hc in Hc'. apply app_inv_head in Hc'. subst new. by eexists _, _.
Qed.

(** X19. On a property whose registered names are plain, [validate]
    returns [false] exactly when every registered check of the order was
    applied and passed; when it returns an error, that is the error of the
    first check that failed, with the message made for that check and the
    path; a check that failed is never passed over in silence; and one call
    reports at most one failure. *)
Theorem validate_reports_first_failure p v ctx path w :
  Forall (fun ty => plain_name ty = true) (Object_keys (Property.registry p)) ->
  exists new,
    calls (snd (Property.validate p v ctx path w)) = calls w ++ new /\
    (fst (Property.validate p v ctx path w) = Ret None <->
     map inv_type new = registration_order p v /\ Forall passed new) /\
    (forall e, fst (Property.validate p v ctx path w) = Ret (Some e) ->
       exists pre i,
         new = pre ++ [i] /\ Forall passed pre /\ inv_result i = Ret false /\
         err_path e = default (Property.name p) path /\
         err_message e
         = render (selected_template p (store (snd (Property.validate p v ctx path w)))
                                     (inv_type i))
                  (default (Property.name p) path) (inv_arg i)) /\
    (forall i, i ∈ new -> inv_result i = Ret false ->
       fst (Property.validate p v ctx path w) <> Ret None) /\
    (List.length (List.filter failed new) <= 1)%nat.
Proof.
  intros Hplain.
  destruct (validate_outcome p v ctx path w) as (new & Hc & Hf & Ho).
  exists new. split; [done |].
  rewrite <- (plain_order p v Hplain).
  assert (forall i, i ∈ new -> inv_result i = Ret false -> ~ Forall passed new) as Hfail.
  { intros i Hin Hi Hall. rewrite Forall_forall in Hall.
    specialize (Hall i Hin). unfold passed in Hall. congruence. }
  destruct (fst (Property.validate p v ctx path w)) as [[e|]|x]; simpl in Ho.
  - destruct Ho as (_ & pre & i & -> & Hpre & Hi & ->).
    split; [| split; [| split]].
    + split; [done |]. intros [_ Hall]. apply Forall_app in Hall as [_ Hall].
      rewrite Forall_singleton in Hall. unfold passed in Hall. congruence.
    + intros e [= <-]. by exists pre, i.
    + done.
    + rewrite List.filter_app, (passed_not_failed _ Hpre). simpl.
      destruct (failed i); simpl; lia.
  - destruct Ho as [Hm Hall]. split; [done |]. split; [done |]. split.
    + intros i Hin Hi. by destruct (Hfail i Hin Hi).
    + rewrite (passed_not_failed _ Hall). simpl. lia.
  - destruct Ho as (Hp & [(Hall & _ & ty & e & Hp' & _)|(pre & i & -> & Hpre & Hi)]).
    + split; [| split; [done | split; [done |]]].
      * split; [done |]. intros [Hm _]. rewrite <- Hm in Hp'.
        apply prefix_length in Hp'. rewrite length_app in Hp'. simpl in Hp'. lia.
      * rewrite (passed_not_failed _ Hall). simpl. lia.
    + split; [| split; [done | split; [done |]]].
      * split; [done |]. intros [_ Hall]. apply Forall_app in Hall as [_ Hall].
        rewrite Forall_singleton in Hall. unfold passed in Hall. congruence.
      * rewrite List.filter_app, (passed_not_failed _ Hpre). simpl.
        destruct (failed i); simpl; lia.
Qed.
End ValidateContract.

(** ** Names without a function, and the required check *)

Section Unregistered.
Context `{Host}.
Implicit Types (p : Property.t) (w : world) (ty : string) (v ctx : value).

(** C2, as amended.  For a name that is registered without a function of
    its own and that [Object.prototype] does not have too: when the
    validators table has no function of that name, the entry is no silent
    no-op, [_run] raises a TypeError (it calls [undefined]) and applies
    nothing, and [validate] raises it when that name is the first to be
    evaluated (no registered name being integer-like); and whenever
    [validate] succeeds on a value that is not null or undefined, a
    function was applied for that name.  What [_run] skips in silence is a
    name that is not in the registry (the registry having its own
    prototype, and [Object.prototype] not having the name). *)
Theorem run_without_function p ty e v ctx path w :
  obj_get ty (Property.registry p) = Some e ->
  Property.fn e = None ->
  on_prototype ty = false ->
  (read_validator (store w) (Property.validators p) ty = None ->
   read_validator (store w) (Property.validators p) "__proto__" = None ->
   Property._run p ty v ctx path w = (Raise not_callable, w) /\
   (forall rest,
      Forall (fun k => integer_like k = false) (Object_keys (Property.registry p)) ->
      evaluation_order p v = ty :: rest ->
      Property.validate p v ctx (Some path) w = (Raise not_callable, w))) /\
  (is_nullish v = false ->
   fst (Property.validate p v ctx (Some path) w) = Ret None ->
   exists i, i ∈ added w (snd (Property.validate p v ctx (Some path) w)) /\
             inv_type i = ty) /\
  (forall ty', obj_get ty' (Property.registry p) = None ->
     on_prototype ty' = false ->
     registered p "__proto__" = false ->
     Property._run p ty' v ctx path w = (Ret None, w)).
Proof.
  intros Hg Hfn Hproto. split; [| split].
  - intros Hnone _.
    assert (Property._run p ty v ctx path w = (Raise not_callable, w)) as Hrun.
    { apply (_run_no_function _ _ e); [done |].
      unfold resolve_validator. by rewrite Hfn. }
    split; [done |]. intros rest _ Hord.
    rewrite validate_evaluation_order_eq, Hord. simpl. unfold bind. by rewrite Hrun.
  - intros Hn Hr.
    destruct (validate_outcome p v ctx (Some path) w) as (new & Hc & Hf & Ho).
    rewrite Hr in Ho. destruct Ho as [Hm _].
    rewrite (added_app _ _ _ Hc).
    assert (ty ∈ map inv_type new) as Hin.
    { rewrite Hm. apply order_registered; [done | by eapply registered_Some | done]. }
    apply list_elem_of_fmap in Hin as (i & -> & Hi). by exists i.
  - intros ty' Hg' _ _. by apply _run_unregistered.
Qed.

(** C4. For every property on which [required(false)] was called, so that
    [required] is registered with the argument [false], [validate(null)] and
    [validate(undefined)] return [false], whatever else is registered: the
    default [required] validator is applied, passes, and nothing else
    runs.  With the argument [false] that validator passes on every
    value. *)
Theorem required_false_accepts_null p v ctx path w :
  obj_get "required" (Property.registry p) = Some (Property.Entry (ArgBool false) None) ->
  read_validator (store w) (Property.validators p) "required" = Some (Builtin BRequired) ->
  is_nullish v = true ->
  Property.validate p v ctx path w
  = (Ret None,
     World (store w)
           (calls w ++ [Invoke "required" (Builtin BRequired) v ctx (ArgBool false) (Ret true)])) /\
  (forall q, obj_get "required" (Property.registry (Property.required q (Some false)))
             = Some (Property.Entry (ArgBool false) None)) /\
  (forall v' ctx', Validators.required v' ctx' (ArgBool false) = Ret true).
Proof.
  intros Hg Htab Hn. split; [| split].
  - unfold Property.validate, bind at 1.
    erewrite _run_applied; [| exact Hg | unfold resolve_validator; simpl; exact Htab | reflexivity].
    simpl. by rewrite Hn.
  - intros q. unfold Property.required, Property._register. simpl. apply obj_get_set_eq.
  - done.
Qed.

End Unregistered.

(** ** The registry and the shared tables *)

Section Registry.
Context `{Host}.
Implicit Types (p : Property.t) (w : world) (ty : string) (v ctx : value).




Lemma use_tables fns : forall p,
  Property.messages (Property.use p fns) = Property.messages p /\
  Property.validators (Property.use p fns) = Property.validators p.
Proof.
  unfold Property.use. induction fns as [|[k f] fns IH]; intros p; simpl; [done |].
  destruct (IH (Property._register p k ArgNull f)) as [-> ->]. done.
Qed.

(** A built property holds the references of its schema. *)
Lemma built_tables schema p :
  built schema p ->
  Property.messages p = Schema.messages schema /\
  Property.validators p = Schema.validators schema.
Proof.
  induction 1 as [name|p fns _ IH|p b _ IH|p ty _ IH|p lo hi _ IH|p enums _ IH|p re _ IH];
    try done.
  destruct (use_tables fns p) as [-> ->]. done.
Qed.

Lemma read_write_validator l ty f h : read_validator (write_validator l ty f h) l ty = Some f.
Proof.
  unfold read_validator, write_validator. simpl.
  rewrite lookup_insert_eq. simpl. apply lookup_insert_eq.
Qed.

Lemma read_write_message l ty m h : read_message (write_message l ty m h) l ty = Some m.
Proof.
  unfold read_message, write_message. simpl.
  rewrite lookup_insert_eq. simpl. apply lookup_insert_eq.
Qed.

End Registry.

(** ** The default validators *)

Section Defaults.
Context `{Host}.

(** C9. The default [nonempty] validator never throws; with the argument
    [false] it passes; with any other argument it fails exactly on the
    empty string, the empty array, the object without keys, [null] and
    [undefined]. *)
Theorem nonempty_fails_on_empty v ctx a :
  exists b,
    Validators.nonempty v ctx a = Ret b /\
    (b = false <->
     a <> ArgBool false /\
     (v = VUndefined \/ v = VNull \/ v = VStr "" \/ v = VArr [] \/ v = VObj [])).
Proof.
  assert (exists b, Validators.nonempty v ctx (ArgBool true) = Ret b /\
            (b = false <->
             (v = VUndefined \/ v = VNull \/ v = VStr "" \/ v = VArr [] \/ v = VObj [])))
    as (b & Hb & Hiff).
  { destruct v as [| |b|n|s|items|fields|ms|r|id arity]; simpl; eexists; (split; [reflexivity |]);
      try (split; [discriminate | intros [?|[?|[?|[?|?]]]]; discriminate]);
      try (split; [tauto | done]).
    - destruct s; simpl; [split; [tauto | done] |].
      split; [discriminate | intros [?|[?|[?|[?|?]]]]; discriminate].
    - destruct items; simpl; [split; [tauto | done] |].
      split; [discriminate | intros [?|[?|[?|[?|?]]]]; discriminate].
    - destruct fields; simpl; [split; [tauto | done] |].
      split; [discriminate | intros [?|[?|[?|[?|?]]]]; discriminate]. }
  destruct a as [| |[|]|s|lo hi|items|r];
    try (exists b; split; [exact Hb |]; rewrite Hiff; split; [intros ?; split; [discriminate | done] | tauto]).
  exists true. split; [done |]. split; [discriminate | intros [? _]; done].
Qed.
End Defaults.

(** The default [length] validator at a maximum of [0]: a string of length
    1 passes, the bound is not enforced. *)
Lemma length_zero_max_not_enforced :
  Validators.length (VStr "a") VUndefined (ArgRules None (Some 0)) = Ret true.
Proof. reflexivity. Qed.

(** With bounds other than [0], the default [length] validator fails
    exactly when the length of a string is below the minimum or above the
    maximum, a bound that is absent not being enforced. *)
Lemma length_nonzero_bounds s ctx lo hi :
  lo <> Some 0 -> hi <> Some 0 ->
  Validators.length (VStr s) ctx (ArgRules lo hi)
  = Ret (negb (match lo with Some b => Z.of_nat (String.length s) <? b | None => false end
               || match hi with Some b => b <? Z.of_nat (String.length s) | None => false end)).
Proof.
  intros Hlo Hhi. unfold Validators.length, Validators.below, Validators.above.
  destruct lo as [lo|], hi as [hi|]; simpl;
    repeat match goal with
           | |- context [?b =? 0] => destruct (Z.eqb_spec b 0); [congruence |]
           end; simpl;
    repeat match goal with
           | |- context [?a <? ?b] => destruct (a <? b); simpl
           end; reflexivity.
Qed.

(** ** Determinism of validation *)

Section Determinism.
Context `{Host}.
Implicit Types (p : Property.t) (h : heap) (ty : string) (v ctx : value).

Lemma obj_get_In {A} (k : string) (x : A) o : obj_get k o = Some x -> In (k, x) o.
Proof.
  induction o as [|[k' y] o IH]; simpl; [done |].
  destruct (String.eqb_spec k k') as [->|]; [intros [= ->]; by left | right; by apply IH].
Qed.

(** A default validator that keeps no state leaves the heap as it is. *)
Lemma steady_quiet p h : steady_builtins h p -> quiet p h.
Proof.
  intros Hs ty e g Hg Hr v ctx h'.
  unfold steady_builtins in Hs. rewrite Forall_forall in Hs.
  specialize (Hs (ty, e) (proj2 (list_elem_of_In _ _) (obj_get_In _ _ _ Hg))).
  unfold steady in Hs. simpl in Hs. rewrite Hr in Hs.
  destruct g as [b|id]; [| done].
  destruct b; try reflexivity.
  unfold apply_fn, Validators.apply, Validators.match_.
  destruct (Property.arg e) as [| |b|s|lo hi|items|r]; try reflexivity.
  specialize (Hs r eq_refl v (last_index h' r)).
  destruct (regexp_test r v (last_index h' r)) as [found index]. simpl in *.
  subst index. by rewrite N.eqb_refl.
Qed.

(** When the validators in use write nothing, running a name leaves the
    heap as it is, what it returns does not depend on the trace, and the
    function it applies is the one the name resolves to in that heap. *)
Lemma _run_quiet p h ty v ctx path :
  quiet p h ->
  exists r new,
    (forall c, Property._run p ty v ctx path (World h c) = (r, World h (c ++ new))) /\
    Forall (resolved p h) new.
Proof.
  intros Hq.
  destruct (obj_get ty (Property.registry p)) as [e|] eqn:Hg.
  2:{ exists (Ret None), []. split; [| constructor].
      intros c. rewrite app_nil_r. by apply _run_unregistered. }
  destruct (resolve_validator p h ty e) as [g|] eqn:Hr.
  2:{ exists (Raise not_callable), []. split; [| constructor].
      intros c. rewrite app_nil_r. by apply (_run_no_function _ _ e). }
  destruct (apply_fn g v ctx (Property.arg e) h) as [r h'] eqn:Ha.
  assert (h' = h) as ->.
  { pose proof (Hq ty e g Hg Hr v ctx h) as Hp. by rewrite Ha in Hp. }
  set (i := Invoke ty g v ctx (Property.arg e) r).
  exists (match r with
          | Ret true => Ret None
          | Ret false => Ret (Some (error_of p h path i))
          | Raise x => Raise x
          end), [i].
  split.
  - intros c.
    rewrite (_run_applied p ty e g r h v ctx path (World h c) Hg Hr Ha).
    simpl. by destruct r as [[|]|x].
  - apply Forall_singleton. by exists e.
Qed.

Lemma run_in_order_quiet p h v ctx path types :
  quiet p h ->
  exists r new,
    (forall c, run_in_order p types v ctx path (World h c) = (r, World h (c ++ new))) /\
    Forall (resolved p h) new.
Proof.
  intros Hq. induction types as [|ty types (r' & new' & IH & Hall')]; simpl.
  - exists (Ret None), []. split; [| constructor]. intros c. by rewrite app_nil_r.
  - destruct (_run_quiet p h ty v ctx path Hq) as (r & new & Hrun & Hall).
    destruct r as [[e|]|x].
    + exists (Ret (Some e)), new. split; [| done]. intros c. unfold bind. by rewrite Hrun.
    + exists r', (new ++ new'). split; [| by apply Forall_app].
      intros c. unfold bind. rewrite Hrun, IH. by rewrite app_assoc.
    + exists (Raise x), new. split; [| done]. intros c. unfold bind. by rewrite Hrun.
Qed.

Lemma validate_quiet p h v ctx path :
  quiet p h ->
  exists r new,
    (forall c, Property.validate p v ctx path (World h c) = (r, World h (c ++ new))) /\
    Forall (resolved p h) new.
Proof.
  intros Hq.
  destruct (run_in_order_quiet p h v ctx (default (Property.name p) path)
              (if is_nullish v then ["required"] else "required" :: "type" :: others p) Hq)
    as (r & new & Hrun & Hall).
  exists r, new. split; [| done]. intros c. by rewrite validate_run_in_order.
Qed.







End Determinism.

(** ** The shared tables *)

Section SharedTables.
Context `{Host}.
Implicit Types (p : Property.t) (w : world) (ty : string) (v ctx : value).

(** X20. A property reads the validators table and the messages table of
    its schema by reference.  For a name registered without a function of
    its own (and that [Object.prototype] does not have too), after the
    entry of that name in the validators table of the schema is assigned:
    [_run] applies the assigned function; when the validators in use write
    nothing, every application the next [validate] makes for that name is
    an application of the assigned function, and there is one whenever that
    call succeeds on a value that is not null or undefined.  After the
    entry of that name in the messages table is assigned a template, an
    error [_error] makes for that name is made from it. *)
Theorem table_assignment_takes_effect schema p ty e f m v ctx path w :
  built schema p ->
  obj_get ty (Property.registry p) = Some e ->
  Property.fn e = None ->
  on_prototype ty = false ->
  let w1 := World (write_validator (Schema.validators schema) ty f (store w)) (calls w) in
  let w2 := World (write_message (Schema.messages schema) ty m (store w)) (calls w) in
  (exists r h,
     apply_fn f v ctx (Property.arg e) (store w1) = (r, h) /\
     calls (snd (Property._run p ty v ctx path w1))
     = calls w ++ [Invoke ty f v ctx (Property.arg e) r]) /\
  (quiet p (store w1) ->
   Forall (fun i => inv_type i = ty -> inv_fn i = f)
          (added w1 (snd (Property.validate p v ctx (Some path) w1))) /\
   (is_nullish v = false ->
    fst (Property.validate p v ctx (Some path) w1) = Ret None ->
    exists i, i ∈ added w1 (snd (Property.validate p v ctx (Some path) w1)) /\
              inv_type i = ty /\ inv_fn i = f)) /\
  (template_truthy m = true ->
   forall err,
     fst (Property._error p ty (Property.arg e) path w2) = Ret err ->
     err = Error (render (Some m) path (Property.arg e)) path).
Proof.
  intros Hb Hg Hfn Hproto w1 w2. destruct (built_tables _ _ Hb) as [Hmsg Hval].
  assert (resolve_validator p (store w1) ty e = Some f) as Hr.
  { unfold resolve_validator. rewrite Hfn, Hval. apply read_write_validator. }
  split; [| split].
  - destruct (apply_fn f v ctx (Property.arg e) (store w1)) as [r h] eqn:Ha.
    exists r, h. split; [done |].
    rewrite (_run_applied p ty e f r h v ctx path w1 Hg Hr Ha). simpl.
    by destruct r as [[|]|x].
  - intros Hq.
    destruct (validate_quiet p (store w1) v ctx (Some path) Hq) as (r & new & Hv & Hall).
    assert (Forall (fun i => inv_type i = ty -> inv_fn i = f) new) as Hnew.
    { eapply Forall_impl; [exact Hall |]. intros i (e' & Hg' & Hr') Hty.
      rewrite Hty, Hg in Hg'. injection Hg' as <-. rewrite Hty, Hr in Hr'. congruence. }
    assert (added w1 (snd (Property.validate p v ctx (Some path) w1)) = new) as ->.
    { apply added_app. unfold w1 at 1. rewrite Hv. done. }
    split; [done |]. intros Hn Hret.
    destruct (validate_outcome p v ctx (Some path) w1) as (new' & Hc & _ & Ho).
    rewrite Hret in Ho. destruct Ho as [Hm _].
    assert (new' = new) as ->.
    { unfold w1 at 1 in Hc. rewrite Hv in Hc. simpl in Hc. by apply app_inv_head in Hc. }
    assert (ty ∈ map inv_type new) as Hin.
    { rewrite Hm. apply order_registered; [done | by eapply registered_Some | done]. }
    apply list_elem_of_fmap in Hin as (i & Hty & Hi).
    exists i. split; [done |]. split; [done |].
    rewrite Forall_forall in Hnew. by apply Hnew.
  - intros Hm err. rewrite _error_eq. simpl. unfold selected_template.
    rewrite Hmsg, read_write_message, Hm. by intros [= <-].
Qed.
End SharedTables.

(** ** The properties at work in the concrete environment *)

Section Examples.
Local Existing Instance Example.host.

(** A value that passes every check: the three validators ran in the
    order required, type, length. *)
Example title_valid :
  fst (Property.validate Example.title (VStr "abc") VUndefined None Example.world0) = Ret None /\
  map inv_type (calls (snd (Property.validate Example.title (VStr "abc") VUndefined None
                                              Example.world0)))
  = ["required"; "type"; "length"].
Proof. split; vm_compute; reflexivity. Qed.

(** A missing value fails [required] and nothing else runs. *)
Example title_missing :
  fst (Property.validate Example.title VUndefined VUndefined None Example.world0)
  = Ret (Some (Error "title is required" "title")) /\
  map inv_type (calls (snd (Property.validate Example.title VUndefined VUndefined None
                                              Example.world0)))
  = ["required"].
Proof. split; vm_compute; reflexivity. Qed.

(** A value of the wrong type fails [type]; [length] does not run. *)
Example title_wrong_type :
  fst (Property.validate Example.title (VNum 7) VUndefined (Some "post.title") Example.world0)
  = Ret (Some (Error "post.title is not valid" "post.title")) /\
  map inv_type (calls (snd (Property.validate Example.title (VNum 7) VUndefined
                                              (Some "post.title") Example.world0)))
  = ["required"; "type"].
Proof. split; vm_compute; reflexivity. Qed.

(** A string that is too short fails [length], reported with the
    [default] template. *)
Example title_too_short :
  fst (Property.validate Example.title (VStr "a") VUndefined None Example.world0)
  = Ret (Some (Error "validation failed" "title")).
Proof. vm_compute. reflexivity. Qed.

(** C2, counterexample.  [hex] is registered without a function of its own
    and the validators table has no [hex]: [validate] raises a TypeError
    on a value that passes the checks before it. *)
Lemma unknown_validator_raises :
  obj_get "hex" (Property.registry Example.title_hex) = Some (Property.Entry ArgNull None) /\
  read_validator Example.heap0 (Property.validators Example.title_hex) "hex" = None /\
  fst (Property.validate Example.title_hex (VStr "abc") VUndefined None Example.world0)
  = Raise not_callable.
Proof. repeat split; vm_compute; reflexivity. Qed.

(** C1, where the code departs.  A validator registered under the name
    [toString] is never run: [done] is an object literal, and [done[type]]
    finds [Object.prototype.toString].  The function rejects every value,
    yet [validate] applies [required], [type] and [length] only and
    returns [false]. *)
Lemma inherited_name_never_run :
  Object_keys (Property.registry Example.title_strict)
  = ["required"; "type"; "length"; "toString"] /\
  fst (apply_fn (Closure 0) (VStr "abc") VUndefined ArgNull Example.heap0) = Ret false /\
  fst (Property.validate Example.title_strict (VStr "abc") VUndefined None Example.world0)
  = Ret None /\
  map inv_type (calls (snd (Property.validate Example.title_strict (VStr "abc") VUndefined None
                                              Example.world0)))
  = ["required"; "type"; "length"].
Proof. repeat split; vm_compute; reflexivity. Qed.

(** C3, where the code departs.  The only check registered on the
    property, under the name [valueOf], fails on the value; [validate]
    returns [false] and reports nothing, having applied nothing. *)
Lemma failing_check_unreported :
  let p := Property.use (Property.constructor "tag" Example.schema)
                        [("valueOf", Some (Closure 0))] in
  obj_get "valueOf" (Property.registry p) = Some (Property.Entry ArgNull (Some (Closure 0))) /\
  apply_fn (Closure 0) (VStr "x") VUndefined ArgNull Example.heap0 = (Ret false, Example.heap0) /\
  Property.validate p (VStr "x") VUndefined None Example.world0 = (Ret None, Example.world0).
Proof. repeat split; vm_compute; reflexivity. Qed.



(** Determinism needs the validators to be pure: with a closure that
    rewrites the [default] message, a second call reports another
    message. *)
Example impure_validator_changes_result :
  let touch := Property.use (Property.constructor "a" Example.schema) [("touch", Some (Closure 2))] in
  let deny := Property.use (Property.constructor "b" Example.schema) [("deny", Some (Closure 0))] in
  let s := SchemaModel.Make Example.schema [("b", deny); ("a", touch)]
                            (SchemaModel.Options false true) in
  let obj := VObj [("a", VNum 1); ("b", VNum 2)] in
  let first := SchemaModel.validate s obj None None Example.world0 in
  let second := SchemaModel.validate s obj None None (snd first) in
  fst first = Ret ([Error "validation failed" "b"], obj) /\
  fst second = Ret ([Error "changed" "b"], obj).
Proof. split; vm_compute; reflexivity. Qed.

(** An element rule is applied to every index of the array. *)
Example element_rule :
  let item := Property.type (Property.constructor "keywords.$" Example.schema) "string" in
  let s := SchemaModel.Make Example.schema [("keywords.$", item)]
                            (SchemaModel.Options false true) in
  fst (SchemaModel.validate s (VObj [("keywords", VArr [VStr "a"; VNum 2]); ("extra", VNum 1)])
                            None None Example.world0)
  = Ret ([Error "keywords.1 is not valid" "keywords.1"],
         VObj [("keywords", VArr [VStr "a"; VNum 2])]).
Proof. vm_compute. reflexivity. Qed.
End Examples.

(** ** The theorems at work in the concrete environment *)

(** [hex] on the title property: run alone, it raises the TypeError. *)
Lemma run_without_function_witness :
  @Property._run Example.host Example.title_hex "hex" (VStr "abc") VUndefined "title"
                 Example.world0
  = (Raise not_callable, Example.world0).
Proof.
  refine (proj1 (proj1 (@run_without_function Example.host Example.title_hex "hex"
                          (Property.Entry ArgNull None) (VStr "abc") VUndefined "title"
                          Example.world0 _ _ _) _ _));
    vm_compute; reflexivity.
Defined.

(** The nick property, with a type and a length registered besides
    [required(false)], accepts [null]. *)
Lemma required_false_accepts_null_witness :
  fst (@Property.validate Example.host Example.nick VNull VUndefined None Example.world0)
  = Ret None.
Proof.
  refine (f_equal fst (proj1 (@required_false_accepts_null Example.host Example.nick VNull
                                VUndefined None Example.world0 _ _ _)));
    vm_compute; reflexivity.
Defined.


(** A list of entries whose functions write nothing makes a quiet
    property. *)
Lemma quiet_entries `{Host} p h :
  Forall (fun kv => forall g, resolve_validator p h (fst kv) (snd kv) = Some g ->
                              preserves_heap g (Property.arg (snd kv)))
         (Property.registry p) ->
  quiet p h.
Proof.
  intros Hall ty e g Hg Hr. rewrite Forall_forall in Hall.
  exact (Hall (ty, e) (proj2 (list_elem_of_In _ _) (obj_get_In _ _ _ Hg)) g Hr).
Qed.

(** After [validators.length] of the schema is assigned a function that
    rejects every value, the title property applies it for [length]. *)
Lemma table_assignment_takes_effect_witness :
  let w1 := World (write_validator 1%positive "length" (Closure 0) Example.heap0) [] in
  Forall (fun i => inv_type i = "length" -> inv_fn i = Closure 0)
         (added w1 (snd (@Property.validate Example.host Example.title (VStr "abc") VUndefined
                           (Some "title") w1))).
Proof.
  refine (proj1 (proj1 (proj2 (@table_assignment_takes_effect Example.host Example.schema
                                 Example.title "length"
                                 (Property.Entry (ArgRules (Some 2) (Some 5)) None) (Closure 0)
                                 (TString "bad length") (VStr "abc") VUndefined "title"
                                 Example.world0 _ _ _ _)) _)).
  - unfold Example.title.
    apply built_length, built_type, built_required, built_constructor.
  - vm_compute. reflexivity.
  - reflexivity.
  - reflexivity.
  - apply quiet_entries. repeat constructor; intros g Hg; vm_compute in Hg;
      injection Hg as <-; intros value ctx h; reflexivity.
Defined.


(** The messages table of the second example heap holds strings only. *)
Lemma example_string_templates :
  @string_templates Example.heap1 (Schema.messages Example.schema).
Proof.
  intros name id. unfold read_message, Example.heap1. simpl.
  rewrite lookup_singleton_eq. simpl. intros Hl.
  apply lookup_singleton_Some in Hl as [_ Hl]. discriminate Hl.
Qed.



(** * Further properties of [property.js] and [validators.js] *)

(** ** Registering *)

Section RegisterFacts.
Context {A : Type}.
Implicit Types (o : list (string * A)) (k : string) (x : A).

Lemma obj_set_set k x y o : obj_set k y (obj_set k x o) = obj_set k y o.
Proof.
  induction o as [|[k' z] o IH]; simpl.
  - by rewrite String.eqb_refl.
  - destruct (String.eqb k k') eqn:E; simpl; rewrite E; [done | by rewrite IH].
Qed.

Lemma obj_get_set k k' x o :
  obj_get k' (obj_set k x o) = if String.eqb k' k then Some x else obj_get k' o.
Proof.
  destruct (String.eqb_spec k' k) as [->|Hne].
  - apply obj_get_set_eq.
  - apply obj_get_set_ne. congruence.
Qed.
End RegisterFacts.

Section Registering.
Implicit Types (p : Property.t) (ty : string).

Lemma registered_false_keys p ty :
  registered p ty = false <-> ty ∉ Object_keys (Property.registry p).
Proof.
  unfold registered. rewrite <- obj_get_None_keys.
  destruct (obj_get ty (Property.registry p)); split; congruence.
Qed.

(** X1. [_register] touches one binding: every other name keeps its
    binding (the name registered not being [__proto__], which would give
    the registry another prototype), the name, the declared type and the
    two table references of the property stay, and a plain name (no name of
    a member of [Object.prototype], not integer-like) that was not
    registered goes after all the names that were. *)
Theorem register_leaves_others p ty a f :
  (forall ty', ty' <> ty -> ty <> "__proto__" ->
     obj_get ty' (Property.registry (Property._register p ty a f))
     = obj_get ty' (Property.registry p)) /\
  (registered p ty = false ->
   plain_name ty = true ->
   Object_keys (Property.registry (Property._register p ty a f))
   = Object_keys (Property.registry p) ++ [ty]) /\
  Property.name (Property._register p ty a f) = Property.name p /\
  Property._type (Property._register p ty a f) = Property._type p /\
  Property.messages (Property._register p ty a f) = Property.messages p /\
  Property.validators (Property._register p ty a f) = Property.validators p.
Proof.
  split; [| split; [| done]].
  - intros ty' Hne _. simpl. apply obj_get_set_ne. congruence.
  - intros Hreg _. simpl. apply keys_set_absent. by apply registered_false_keys.
Qed.

(** X2. Registrations compose as assignments do: registering a name a
    second time leaves only the second binding, as if the first had not
    been made, and registrations of two different names give the same
    bindings in either order. *)
Theorem register_last_wins p ty a f a' f' :
  Property._register (Property._register p ty a f) ty a' f'
  = Property._register p ty a' f' /\
  (forall ty' k, ty <> ty' ->
     obj_get k (Property.registry
                  (Property._register (Property._register p ty a f) ty' a' f'))
     = obj_get k (Property.registry
                    (Property._register (Property._register p ty' a' f') ty a f))).
Proof.
  split.
  - unfold Property._register. simpl. by rewrite obj_set_set.
  - intros ty' k Hne. simpl. rewrite !obj_get_set.
    destruct (String.eqb_spec k ty'), (String.eqb_spec k ty); congruence.
Qed.

Lemma use_cons p name f fns :
  Property.use p ((name, f) :: fns) = Property.use (Property._register p name ArgNull f) fns.
Proof. reflexivity. Qed.

(** Names that are not in the object given to [use] keep their binding. *)
Lemma use_other fns : forall p name,
  name ∉ map fst fns ->
  obj_get name (Property.registry (Property.use p fns)) = obj_get name (Property.registry p).
Proof.
  induction fns as [|[k g] fns IH]; intros p name Hname; [done |].
  simpl in Hname. apply not_elem_of_cons in Hname as [Hne Hname].
  rewrite use_cons, IH by done. simpl. apply obj_get_set_ne. congruence.
Qed.

(** X3. [use] registers every function of the object under its name, with
    the argument [null]; names that are not in the object keep their
    binding (the object having no key [__proto__] of its own); when the
    names of the object are plain (no name of a member of
    [Object.prototype], not integer-like), the names of the registry are
    the old ones followed by the new ones in the order of the object. *)
Theorem use_binds_each fns : forall p,
  NoDup (map fst fns) ->
  (forall name f, In (name, f) fns ->
     obj_get name (Property.registry (Property.use p fns))
     = Some (Property.Entry ArgNull f)) /\
  (forall name, name ∉ map fst fns -> "__proto__" ∉ map fst fns ->
     obj_get name (Property.registry (Property.use p fns))
     = obj_get name (Property.registry p)) /\
  (Forall (fun name => plain_name name = true) (map fst fns) ->
   Object_keys (Property.registry (Property.use p fns))
   = Object_keys (Property.registry p)
     ++ List.filter (fun name => negb (registered p name)) (map fst fns)).
Proof.
  induction fns as [|[k g] fns IH]; intros p Hnd.
  - simpl. rewrite app_nil_r. by repeat split.
  - apply NoDup_cons in Hnd as [Hk Hnd]. rewrite use_cons.
    destruct (IH (Property._register p k ArgNull g) Hnd) as (Hin & _ & Hkeys).
    split; [| split].
    + intros name f [[= <- <-]|Hf].
      * rewrite use_other by done. apply obj_get_set_eq.
      * by apply Hin.
    + intros name Hname _. rewrite <- use_cons. by apply use_other.
    + intros Hplain. apply Forall_cons in Hplain as [_ Hplain].
      rewrite (Hkeys Hplain).
      assert (List.filter (fun name => negb (registered (Property._register p k ArgNull g) name))
                          (map fst fns)
              = List.filter (fun name => negb (registered p name)) (map fst fns)) as ->.
      { apply filter_ext_in. intros name Hname. unfold registered. simpl.
        rewrite obj_get_set_ne; [done |]. intros ->. apply Hk, list_elem_of_In, Hname. }
      simpl. destruct (registered p k) eqn:Hreg; simpl.
      * f_equal. apply keys_set_present.
        unfold registered in Hreg.
        destruct (obj_get k (Property.registry p)) eqn:Hg; [| done].
        by eapply obj_get_Some_keys.
      * rewrite keys_set_absent by (by apply registered_false_keys).
        by rewrite <- app_assoc.
Qed.
End Registering.

(** ** Functions given to [use], and the declared type *)

Section Overrides.
Context `{Host}.
Implicit Types (p : Property.t) (w : world) (ty : string) (v ctx : value).

Lemma _run_own_function p ty v ctx path w :
  exists new,
    calls (snd (Property._run p ty v ctx path w)) = calls w ++ new /\
    Forall (fun i => forall e f,
              obj_get (inv_type i) (Property.registry p) = Some e ->
              Property.fn e = Some f -> inv_fn i = f) new.
Proof.
  destruct (obj_get ty (Property.registry p)) as [e|] eqn:Hg.
  2:{ exists []. rewrite (_run_unregistered _ _ _ _ _ _ Hg), app_nil_r. by split. }
  destruct (resolve_validator p (store w) ty e) as [g|] eqn:Hr.
  2:{ exists []. rewrite (_run_no_function _ _ _ _ _ _ _ Hg Hr), app_nil_r. by split. }
  destruct (apply_fn g v ctx (Property.arg e) (store w)) as [r h] eqn:Ha.
  exists [Invoke ty g v ctx (Property.arg e) r].
  rewrite (_run_applied _ _ _ _ _ _ _ _ _ _ Hg Hr Ha). simpl.
  split; [by destruct r as [[|]|x] |].
  apply Forall_singleton. simpl. intros e' f Hg' Hf.
  rewrite Hg in Hg'. injection Hg' as <-.
  unfold resolve_validator in Hr. rewrite Hf in Hr. congruence.
Qed.

Lemma run_in_order_own_function p v ctx path types : forall w,
  exists new,
    calls (snd (run_in_order p types v ctx path w)) = calls w ++ new /\
    Forall (fun i => forall e f,
              obj_get (inv_type i) (Property.registry p) = Some e ->
              Property.fn e = Some f -> inv_fn i = f) new.
Proof.
  induction types as [|ty types IH]; intros w; simpl.
  - exists []. rewrite app_nil_r. by split.
  - unfold bind.
    destruct (_run_own_function p ty v ctx path w) as (new & Hc & Hall).
    destruct (Property._run p ty v ctx path w) as [[[err|]|x] w1]; simpl in *;
      [by exists new | | by exists new].
    destruct (IH w1) as (new' & Hc' & Hall').
    exists (new ++ new'). rewrite Hc', Hc, app_assoc. split; [done |].
    by apply Forall_app.
Qed.

(** X4. A function given to [use] overrides the schema: whatever the
    validators table holds under that name, [_run] applies the function of
    the property, and every application that [validate] makes for a name
    with a function of its own is an application of that function. *)
Theorem own_function_overrides_table p v ctx path w :
  (exists new,
     calls (snd (Property.validate p v ctx path w)) = calls w ++ new /\
     Forall (fun i => forall e f,
               obj_get (inv_type i) (Property.registry p) = Some e ->
               Property.fn e = Some f -> inv_fn i = f) new) /\
  (forall ty a f path',
     obj_get ty (Property.registry p) = Some (Property.Entry a (Some f)) ->
     calls (snd (Property._run p ty v ctx path' w))
     = calls w ++ [Invoke ty f v ctx a (fst (apply_fn f v ctx a (store w)))]).
Proof.
  split.
  - rewrite validate_run_in_order. apply run_in_order_own_function.
  - intros ty a f path' Hg.
    destruct (apply_fn f v ctx a (store w)) as [r h] eqn:Ha.
    rewrite (_run_applied p ty _ f r h v ctx path' w Hg eq_refl Ha). simpl.
    by destruct r as [[|]|x].
Qed.

Lemma use_type_entry fns : forall p t f,
  obj_get "type" (Property.registry (Property.use p fns))
  = Some (Property.Entry (ArgString t) f) ->
  obj_get "type" (Property.registry p) = Some (Property.Entry (ArgString t) f).
Proof.
  induction fns as [|[k g] fns IH]; intros p t f Hg; [done |].
  rewrite use_cons in Hg. apply IH in Hg. simpl in Hg.
  rewrite obj_get_set in Hg. by destruct (String.eqb "type" k).
Qed.

Lemma use_declared_type fns : forall p,
  Property._type (Property.use p fns) = Property._type p.
Proof.
  induction fns as [|[k g] fns IH]; intros p; [done |].
  rewrite use_cons, IH. done.
Qed.

(** X5. In a property made with the builders, the type that the registry
    holds for the [type] validator is the declared type that [typecast]
    casts to: when [type] is registered with a type name, [_type] is that
    name, and [typecast] hands the value to the coercion with that name
    (unless it is the empty string); a new property casts nothing. *)
Theorem declared_type_is_cast_type schema p t f :
  built schema p ->
  obj_get "type" (Property.registry p) = Some (Property.Entry (ArgString t) f) ->
  Property._type p = Some t /\
  (forall v, t <> "" -> Property.typecast p v = typecast_prim v t) /\
  (forall name v, Property.typecast (Property.constructor name schema) v = v).
Proof.
  intros Hb Hg.
  assert (Property._type p = Some t) as Hty.
  { revert t f Hg.
    induction Hb as [name|p fns _ IH|p b _ IH|p ty _ IH|p lo hi _ IH|p enums _ IH|p re _ IH];
      intros t f Hg; simpl in Hg.
    - done.
    - rewrite use_declared_type. eapply IH, use_type_entry, Hg.
    - rewrite obj_get_set in Hg. simpl in Hg. by eapply IH.
    - rewrite obj_get_set in Hg. simpl in Hg. simpl. congruence.
    - rewrite obj_get_set in Hg. simpl in Hg. by eapply IH.
    - rewrite obj_get_set in Hg. simpl in Hg. by eapply IH.
    - rewrite obj_get_set in Hg. simpl in Hg. by eapply IH. }
  split; [done |]. split; [| done].
  intros v Hne. unfold Property.typecast. rewrite Hty.
  by destruct (String.eqb_spec t "").
Qed.
End Overrides.

(** ** The order of the builder calls *)

Section BuilderOrder.
Context `{Host}.
Implicit Types (p q : Property.t) (w : world) (ty : string) (v ctx : value).

Lemma _run_ext p q ty v ctx path w :
  Property.messages p = Property.messages q ->
  Property.validators p = Property.validators q ->
  obj_get ty (Property.registry p) = obj_get ty (Property.registry q) ->
  Property._run p ty v ctx path w = Property._run q ty v ctx path w.
Proof.
  intros Hm Hv Hg. unfold Property._run, Property._error. by rewrite Hm, Hv, Hg.
Qed.

Lemma run_in_order_ext p q v ctx path types : forall w,
  Property.messages p = Property.messages q ->
  Property.validators p = Property.validators q ->
  (forall ty, obj_get ty (Property.registry p) = obj_get ty (Property.registry q)) ->
  run_in_order p types v ctx path w = run_in_order q types v ctx path w.
Proof.
  intros w Hm Hv Hg. revert w.
  induction types as [|ty types IH]; intros w; simpl; [done |].
  unfold bind. rewrite (_run_ext p q ty v ctx path w Hm Hv (Hg ty)).
  destruct (Property._run q ty v ctx path w) as [[[err|]|x] w1]; [done | apply IH | done].
Qed.

(** [validate] depends on the registry through its bindings and through
    the order of the names other than [required] and [type]. *)
Lemma validate_ext p q v ctx path w :
  Property.name p = Property.name q ->
  Property.messages p = Property.messages q ->
  Property.validators p = Property.validators q ->
  (forall ty, obj_get ty (Property.registry p) = obj_get ty (Property.registry q)) ->
  others p = others q ->
  Property.validate p v ctx path w = Property.validate q v ctx path w.
Proof.
  intros Hn Hm Hv Hg Ho. rewrite !validate_run_in_order, Hn, Ho.
  by apply run_in_order_ext.
Qed.

Lemma filter_keys_set {A} (g : string -> bool) (k : string) (x : A) o :
  g k = false ->
  List.filter g (Object_keys (obj_set k x o)) = List.filter g (Object_keys o).
Proof.
  intros Hk. destruct (decide (k ∈ Object_keys o)) as [Hin|Hin].
  - by rewrite keys_set_present.
  - rewrite keys_set_absent by done. rewrite List.filter_app. simpl.
    rewrite Hk. apply app_nil_r.
Qed.

(** X6. The order in which [required] and [type] are called on a property
    does not matter to [validate]: the two chains validate every value
    alike, with the same result, the same applications and the same
    heap. *)
Theorem required_type_commute p bool type v ctx path w :
  Property.validate (Property.type (Property.required p bool) type) v ctx path w
  = Property.validate (Property.required (Property.type p type) bool) v ctx path w.
Proof.
  apply validate_ext; try done.
  - intros ty. simpl. rewrite !obj_get_set.
    destruct (String.eqb_spec ty "type") as [->|]; [done |].
    by destruct (String.eqb ty "required").
  - unfold others. simpl. by rewrite !filter_keys_set.
Qed.
End BuilderOrder.

(** ** More on the default validators *)

Section MoreDefaults.
Context `{Host}.
Implicit Types (v ctx : value).

Lemma length_prop_raises v :
  (exists x, length_prop v = Raise x) <-> is_nullish v = true.
Proof.
  destruct v as [| |b|n|s|items|fields|ms|r|id arity]; simpl;
    try (split; [intros [x Hx]; discriminate | discriminate]);
    try (split; [done | by eexists]).
  destruct (List.find _ fields) as [[k [| |b|n|s|items|fields'|ms|r|id arity]]|];
    split; try discriminate; intros [x Hx]; discriminate.
Qed.

Lemma length_of_nullish v ctx lo hi :
  is_nullish v = true ->
  Validators.length v ctx (ArgRules lo hi)
  = if truthy_bound lo || truthy_bound hi
    then Raise (TypeError "Cannot read property 'length'")
    else Ret true.
Proof.
  intros Hn.
  assert (length_prop v = Raise (TypeError "Cannot read property 'length'")) as Hl.
  { by destruct v. }
  unfold Validators.length, Validators.below, Validators.above, truthy_bound. rewrite Hl.
  destruct lo as [lo|], hi as [hi|]; simpl;
    repeat match goal with
           | |- context [?b =? 0] => destruct (b =? 0); simpl
           end; reflexivity.
Qed.

(** X7. On a value whose length is absent or a number (so that comparing
    it with a bound coerces nothing), the default [length] validator throws
    in two cases only: when the rules are [null] or [undefined], and when
    the value is [null] or [undefined] while a bound is present and not
    [0]; with no such bound the length of the value is never read. *)
Theorem length_raises_iff v ctx rules :
  plain_length v = true ->
  (exists x, Validators.length v ctx rules = Raise x) <->
  rules = ArgUndefined \/ rules = ArgNull \/
  (is_nullish v = true /\
   exists lo hi, rules = ArgRules lo hi /\ truthy_bound lo || truthy_bound hi = true).
Proof.
  intros _. destruct rules as [| |b|s|lo hi|items|r]; simpl;
    try (split; [by eauto | by eexists]);
    try (split; [intros [x Hx]; discriminate
                | intros [?|[?|(_ & lo & hi & ? & _)]]; discriminate]).
  change (res_bind (Validators.below v lo) _) with (Validators.length v ctx (ArgRules lo hi)).
  destruct (is_nullish v) eqn:Hn.
  - rewrite (length_of_nullish v ctx lo hi Hn).
    destruct (truthy_bound lo || truthy_bound hi) eqn:Ht.
    + split; [| by eexists]. intros _. right. right. split; [done |]. by exists lo, hi.
    + split; [intros [x Hx]; discriminate |].
      intros [?|[?|(_ & lo' & hi' & [= <- <-] & Ht')]]; try discriminate. congruence.
  - split; [| intros [?|[?|(? & _)]]; discriminate].
    intros [x Hx]. exfalso.
    assert (exists len, length_prop v = Ret len) as [len Hlen].
    { destruct (length_prop v) as [len|y] eqn:Hl; [by eexists |].
      assert (is_nullish v = true) by (apply length_prop_raises; by eexists). congruence. }
    unfold Validators.length, Validators.below, Validators.above in Hx. rewrite Hlen in Hx.
    destruct lo as [lo|], hi as [hi|]; simpl in Hx;
      repeat match type of Hx with
             | context [if ?b then _ else _] => destruct b; simpl in Hx
             end; discriminate.
Qed.

(** X8. On a value with a numeric length (a string, an array), and with
    bounds other than [0], the default [length] validator fails exactly
    when the length is below the minimum or above the maximum; a bound that
    is absent is not enforced. *)
Theorem length_enforces_bounds v ctx n lo hi :
  length_prop v = Ret (Some n) ->
  lo <> Some 0 -> hi <> Some 0 ->
  exists b,
    Validators.length v ctx (ArgRules lo hi) = Ret b /\
    (b = false <-> (exists m, lo = Some m /\ n < m) \/ (exists m, hi = Some m /\ m < n)).
Proof.
  intros Hlen Hlo Hhi. unfold Validators.length, Validators.below, Validators.above.
  rewrite Hlen.
  destruct lo as [lo|]; [destruct (Z.eqb_spec lo 0); [congruence |] |];
    (destruct hi as [hi|]; [destruct (Z.eqb_spec hi 0); [congruence |] |]); simpl;
    repeat match goal with
           | |- context [?a <? ?b] => destruct (Z.ltb_spec a b); simpl
           end;
    eexists; (split; [reflexivity |]);
    (split; [try discriminate; intros _; eauto
            | try done; intros [(m & [= <-] & ?)|(m & [= <-] & ?)]; try discriminate; lia]).
Qed.

Lemma same_value_zero_eq v x : is_primitive v = true -> same_value_zero v x = true <-> v = x.
Proof.
  destruct v as [| |b|n|s|items|fields|ms|r|id arity]; try discriminate; intros _;
    destruct x as [| |b'|n'|s'|items'|fields'|ms'|r'|id' arity']; simpl;
    try (split; [discriminate | done || discriminate]); try done.
  - rewrite Bool.eqb_true_iff. split; congruence.
  - rewrite Z.eqb_eq. split; congruence.
  - rewrite String.eqb_eq. split; congruence.
Qed.

(** X9. With an array of allowed values the default [enum] validator never
    throws, and it accepts a primitive value (undefined, null, a boolean, a
    number, a string) exactly when the value is in the array; the empty
    array accepts nothing. *)
Theorem enum_accepts_members v ctx items :
  exists b,
    Validators.enum v ctx (ArgArray items) = Ret b /\
    (is_primitive v = true -> (b = true <-> In v items)) /\
    (items = [] -> b = false).
Proof.
  eexists. split; [reflexivity |]. split.
  - intros Hp. rewrite existsb_exists. split.
    + intros (x & Hin & Hx). apply same_value_zero_eq in Hx; [by subst | done].
    + intros Hin. exists v. split; [done |]. by apply same_value_zero_eq.
  - by intros ->.
Qed.

(** X13. Whatever the default [nonempty] validator accepts (its argument
    not being [false]), the default [required] validator accepts, with any
    argument. *)
Theorem nonempty_implies_required v ctx a a' :
  a <> ArgBool false ->
  Validators.nonempty v ctx a = Ret true ->
  Validators.required v ctx a' = Ret true.
Proof.
  intros Ha Hne.
  assert (is_nullish v = false) as Hn.
  { destruct v; try done;
      destruct a as [| |[|]|s|lo hi|items|r]; simpl in Hne; congruence. }
  unfold Validators.required. rewrite Hn.
  by destruct a' as [| |[|]|s|lo hi|items|r].
Qed.
End MoreDefaults.

(** ** Missing values, wrong types, and what [validate] leaves alone *)

Section MoreValidate.
Context `{Host}.
Implicit Types (p : Property.t) (w : world) (ty : string) (v ctx : value).

(** X10. A property on which [required] is not registered accepts [null]
    and [undefined]: [validate] returns [false] without applying any
    validator and leaves the heap and the trace as they were, whatever else
    is registered. *)
Theorem optional_accepts_null p v ctx path w :
  registered p "required" = false ->
  is_nullish v = true ->
  Property.validate p v ctx path w = (Ret None, w).
Proof.
  intros Hreg Hn. unfold Property.validate, bind.
  rewrite _run_unregistered.
  - by rewrite Hn.
  - unfold registered in Hreg. by destruct (obj_get "required" (Property.registry p)).
Qed.

(** X11. A property on which [required] is registered with an argument
    other than [false], the validators table holding the default
    [required], rejects [null] and [undefined]: [validate] applies
    [required] alone and returns the error made for [required], with the
    path, whatever else is registered. *)
Theorem required_rejects_null p a v ctx path w :
  obj_get "required" (Property.registry p) = Some (Property.Entry a None) ->
  a <> ArgBool false ->
  read_validator (store w) (Property.validators p) "required" = Some (Builtin BRequired) ->
  is_nullish v = true ->
  Property.validate p v ctx path w
  = (Ret (Some (Error (render (selected_template p (store w) "required")
                              (default (Property.name p) path) a)
                      (default (Property.name p) path))),
     World (store w)
           (calls w ++ [Invoke "required" (Builtin BRequired) v ctx a (Ret false)])).
Proof.
  intros Hg Ha Htab Hn.
  assert (Validators.required v ctx a = Ret false) as Hreq.
  { unfold Validators.required. rewrite Hn. by destruct a as [| |[|]|s|lo hi|items|r]. }
  unfold Property.validate, bind at 1.
  erewrite _run_applied;
    [| exact Hg | unfold resolve_validator; simpl; exact Htab | simpl; by rewrite Hreq].
  reflexivity.
Qed.

(** X12. With only default validators that keep no state in use ([match]
    only with a regular expression without the flags [g] and [y]) and a
    messages table of strings, [validate] reads the shared tables and never
    writes them: the heap after the call is the heap before it, and the
    result does not depend on the applications made earlier. *)
Theorem validate_reads_only p v ctx path w :
  steady_builtins (store w) p ->
  string_templates (store w) (Property.messages p) ->
  store (snd (Property.validate p v ctx path w)) = store w /\
  (forall c, fst (Property.validate p v ctx path (World (store w) c))
             = fst (Property.validate p v ctx path w)).
Proof.
  intros Hsteady _.
  destruct (validate_quiet p (store w) v ctx path (steady_quiet _ _ Hsteady))
    as (r & new & Hv & _).
  destruct w as [h c0]. simpl in *. split.
  - by rewrite Hv.
  - intros c. by rewrite !Hv.
Qed.

(** X14. A property with a [type] and no [required], the validators table
    holding the default [type]: on a value that is not null or undefined,
    [validate] applies [type] first; a value of another classified type is
    rejected there, with the error made for [type], and nothing else is
    applied. *)
Theorem type_mismatch_reported p t v ctx path w :
  registered p "required" = false ->
  obj_get "type" (Property.registry p) = Some (Property.Entry (ArgString t) None) ->
  read_validator (store w) (Property.validators p) "type" = Some (Builtin BType) ->
  is_nullish v = false ->
  if String.eqb (typeOf v) t then
    exists new,
      calls (snd (Property.validate p v ctx path w))
      = calls w ++ Invoke "type" (Builtin BType) v ctx (ArgString t) (Ret true) :: new
  else
    Property.validate p v ctx path w
    = (Ret (Some (Error (render (selected_template p (store w) "type")
                                (default (Property.name p) path) (ArgString t))
                        (default (Property.name p) path))),
       World (store w)
             (calls w ++ [Invoke "type" (Builtin BType) v ctx (ArgString t) (Ret false)])).
Proof.
  intros Hreg Hg Htab Hn.
  assert (obj_get "required" (Property.registry p) = None) as Hnone.
  { unfold registered in Hreg. by destruct (obj_get "required" (Property.registry p)). }
  assert (resolve_validator p (store w) "type" (Property.Entry (ArgString t) None)
          = Some (Builtin BType)) as Hr by exact Htab.
  destruct (String.eqb (typeOf v) t) eqn:Heq.
  - assert (exists rest, evaluation_order p v = "type" :: rest) as [rest Hord].
    { unfold evaluation_order. rewrite Hreg, Hn, (registered_Some _ _ _ Hg). by eexists. }
    rewrite validate_evaluation_order_eq, Hord. simpl. unfold bind.
    erewrite _run_applied; [| exact Hg | exact Hr | simpl; by rewrite Heq]. simpl.
    destruct (run_in_order_outcome p v ctx (default (Property.name p) path) rest
                (World (store w)
                   (calls w ++ [Invoke "type" (Builtin BType) v ctx (ArgString t) (Ret true)])))
      as (new & Hc & _).
    exists new. rewrite Hc. simpl. by rewrite <- app_assoc.
  - unfold Property.validate, bind at 1.
    rewrite (_run_unregistered _ _ _ _ _ _ Hnone), Hn. unfold bind at 1.
    erewrite _run_applied; [| exact Hg | exact Hr | simpl; by rewrite Heq].
    reflexivity.
Qed.
End MoreValidate.

(** ** Messages and exceptions *)

Section Exceptions.
Context `{Host}.
Implicit Types (p : Property.t) (w : world) (ty : string) (v ctx : value).

(** X15. A template that is the empty string counts as missing.  For a
    name that [Object.prototype] does not have, in a messages table with
    its own prototype: when the table has no template of that name, or the
    empty string, [_error] makes the error from the [default] template when
    that is a string, and with an empty message when there is none; it
    leaves the heap and the trace as they are. *)
Theorem empty_template_falls_back p ty a path w :
  on_prototype ty = false ->
  read_message (store w) (Property.messages p) "__proto__" = None ->
  read_message (store w) (Property.messages p) ty = None \/
  read_message (store w) (Property.messages p) ty = Some (TString "") ->
  (forall s, read_message (store w) (Property.messages p) "default" = Some (TString s) ->
     Property._error p ty a path w = (Ret (Error s path), w)) /\
  (read_message (store w) (Property.messages p) "default" = None ->
   Property._error p ty a path w = (Ret (Error "" path), w)).
Proof.
  intros _ _ Hty. rewrite _error_eq. unfold selected_template.
  split; [intros s Hd | intros Hd]; destruct Hty as [-> | ->]; simpl; by rewrite Hd.
Qed.

(** X16. When the validators in use write nothing and the messages table
    holds strings only, [validate] throws nothing of its own: when a call
    raises, either one of the validators it applied threw that exception,
    or the exception is the TypeError of calling [undefined], a registered
    name having no function in the registry nor in the validators table. *)
Theorem validate_raises_only p v ctx path w x :
  quiet p (store w) ->
  string_templates (store w) (Property.messages p) ->
  fst (Property.validate p v ctx path w) = Raise x ->
  (exists i, i ∈ added w (snd (Property.validate p v ctx path w)) /\
             inv_result i = Raise x) \/
  (x = not_callable /\
   exists ty e,
     obj_get ty (Property.registry p) = Some e /\
     resolve_validator p (store w) ty e = None).
Proof.
  intros Hq _ Hr. destruct (validate_outcome p v ctx path w) as (new & Hc & _ & Ho).
  destruct (validate_quiet p (store w) v ctx path Hq) as (r & new' & Hv & _).
  assert (store (snd (Property.validate p v ctx path w)) = store w) as Hs.
  { destruct w as [h c]. simpl in *. by rewrite Hv. }
  rewrite Hr, Hs in Ho. rewrite (added_app _ _ _ Hc).
  destruct Ho as (_ & [(_ & -> & ty & e & _ & Hg & Hnone)|(pre & i & -> & _ & Hi)]).
  - right. split; [done |]. by exists ty, e.
  - left. exists i. split; [| done]. apply elem_of_app. right. apply list_elem_of_here.
Qed.

Lemma forallb_obj_set {A} (g : string * A -> bool) k x o :
  forallb g o = true -> g (k, x) = true -> forallb g (obj_set k x o) = true.
Proof.
  intros Ho Hx. induction o as [|[k' y] o IH]; simpl in *.
  - by rewrite Hx.
  - apply andb_true_iff in Ho as [Hy Ho].
    destruct (String.eqb_spec k k') as [->|]; simpl.
    + by rewrite Hx, Ho.
    + by rewrite Hy, IH.
Qed.

(** The typed builders make typed bindings only. *)
Lemma configured_typed schema p :
  configured schema p ->
  forallb typed_binding (Property.registry p) = true /\
  Property.validators p = Schema.validators schema.
Proof.
  induction 1 as [name|p b _ [IH Hv]|p ty _ [IH Hv]|p lo hi _ [IH Hv]|p enums _ [IH Hv]];
    (split; [| done]); try done; simpl; by apply forallb_obj_set.
Qed.

(** A typed binding, run on a value it may see, returns. *)
Lemma _run_typed p h ty v ctx path c :
  forallb typed_binding (Property.registry p) = true ->
  default_validators h (Property.validators p) ->
  plain_length v = true ->
  is_nullish v = false \/ ty = "required" ->
  exists r new,
    Property._run p ty v ctx path (World h c) = (Ret r, World h (c ++ new)).
Proof.
  intros Hall Htab Hlen Hv.
  destruct (obj_get ty (Property.registry p)) as [e|] eqn:Hg.
  2:{ exists None, []. rewrite app_nil_r. by apply _run_unregistered. }
  rewrite forallb_forall in Hall. specialize (Hall _ (obj_get_In _ _ _ Hg)).
  unfold typed_binding in Hall. simpl in Hall.
  destruct e as [a f]. simpl in Hall. destruct f as [f|]; [done |].
  assert (exists b, resolve_validator p h ty (Property.Entry a None) = Some (Builtin b) /\
                    exists r, apply_fn (Builtin b) v ctx a h = (Ret r, h)) as (b & Hr & r & Hap).
  { unfold resolve_validator. simpl. rewrite Htab.
    destruct a as [| |b|s|lo hi|items|re]; try done;
      apply String.eqb_eq in Hall; subst ty.
    - exists BRequired. split; [done |]. simpl. destruct b; by eexists.
    - exists BType. split; [done |]. by eexists.
    - exists BLength. split; [done |]. unfold apply_fn, Validators.apply.
      destruct Hv as [Hn|?]; [| done].
      destruct (Validators.length v ctx (ArgRules lo hi)) as [r|x] eqn:Hl; [by eexists |].
      assert (exists y, Validators.length v ctx (ArgRules lo hi) = Raise y) as Hex
          by (by eexists).
      apply (length_raises_iff _ _ _ Hlen) in Hex as [?|[?|[? _]]]; congruence.
    - exists BEnum. split; [done |]. by eexists. }
  pose proof (_run_applied p ty _ (Builtin b) (Ret r) h v ctx path (World h c) Hg Hr Hap) as Hrun.
  simpl in Hrun. rewrite Hrun. destruct r; by eexists _, _.
Qed.

Lemma run_in_order_typed p h v ctx path types :
  forallb typed_binding (Property.registry p) = true ->
  default_validators h (Property.validators p) ->
  plain_length v = true ->
  Forall (fun ty => is_nullish v = false \/ ty = "required") types ->
  forall c, exists r new,
    run_in_order p types v ctx path (World h c) = (Ret r, World h (c ++ new)).
Proof.
  intros Hall Htab Hlen Htypes. induction Htypes as [|ty types Hty _ IH]; intros c; simpl.
  - exists None, []. by rewrite app_nil_r.
  - destruct (_run_typed p h ty v ctx path c Hall Htab Hlen Hty) as (r & new & Hrun).
    unfold bind. rewrite Hrun. destruct r as [e|].
    + by exists (Some e), new.
    + destruct (IH (c ++ new)) as (r' & new' & Hrest).
      exists r', (new ++ new'). by rewrite Hrest, app_assoc.
Qed.

(** X17. A property configured through [required], [type], [length] and
    [enum] only, on a schema whose validators table is the default one and
    whose messages table holds strings only, never throws from [validate]
    on a value whose length is absent or a number: the call returns [false]
    or an error, and the heap is as before. *)
Theorem configured_never_throws schema p v ctx path w :
  configured schema p ->
  default_validators (store w) (Schema.validators schema) ->
  string_templates (store w) (Schema.messages schema) ->
  plain_length v = true ->
  exists r,
    fst (Property.validate p v ctx path w) = Ret r /\
    store (snd (Property.validate p v ctx path w)) = store w.
Proof.
  intros Hc Htab _ Hlen. destruct (configured_typed _ _ Hc) as [Hall Hv].
  rewrite <- Hv in Htab. destruct w as [h c].
  destruct (run_in_order_typed p h v ctx (default (Property.name p) path)
              (if is_nullish v then ["required"] else "required" :: "type" :: others p)
              Hall Htab Hlen) with (c := c) as (r & new & Hrun).
  { destruct (is_nullish v); [by repeat constructor |].
    apply Forall_forall. intros ty _. by left. }
  exists r. by rewrite validate_run_in_order, Hrun.
Qed.
End Exceptions.

(** ** The further properties in the concrete environment *)

(** The validators table of the example heap is the default one. *)
Lemma example_default_validators :
  default_validators Example.heap0 (Schema.validators Example.schema).
Proof.
  intros name. unfold read_validator, Example.heap0. simpl.
  by rewrite lookup_singleton_eq.
Qed.

(** Two functions added to the title property go after its three names. *)
Lemma use_binds_each_witness :
  Object_keys (Property.registry
                 (Property.use Example.title [("hex", Some (Closure 0)); ("odd", None)]))
  = ["required"; "type"; "length"; "hex"; "odd"].
Proof.
  refine (proj2 (proj2 (use_binds_each [("hex", Some (Closure 0)); ("odd", None)]
                          Example.title _)) _).
  - simpl. apply NoDup_cons. split; [| apply NoDup_singleton].
    intros Hin. apply list_elem_of_singleton in Hin. discriminate Hin.
  - repeat constructor.
Defined.

(** The declared type of the title property is the registered one. *)
Lemma declared_type_is_cast_type_witness :
  Property._type Example.title = Some "string".
Proof.
  refine (proj1 (@declared_type_is_cast_type Example.host Example.schema Example.title
                   "string" None _ _)).
  - unfold Example.title.
    apply built_length, built_type, built_required, built_constructor.
  - reflexivity.
Defined.

(** A string of length 3 is within the bounds 2 and 5. *)
Lemma length_enforces_bounds_witness :
  exists b,
    Validators.length (VStr "abc") VUndefined (ArgRules (Some 2) (Some 5)) = Ret b /\
    (b = false <->
     (exists m, Some 2 = Some m /\ 3 < m) \/ (exists m, Some 5 = Some m /\ m < 3)).
Proof.
  apply (length_enforces_bounds (VStr "abc") VUndefined 3 (Some 2) (Some 5));
    [reflexivity | discriminate | discriminate].
Defined.

(** A property with a type only accepts [null]. *)
Lemma optional_accepts_null_witness :
  @Property.validate Example.host
    (Property.type (Property.constructor "nick" Example.schema) "string")
    VNull VUndefined None Example.world0
  = (Ret None, Example.world0).
Proof.
  apply (@optional_accepts_null Example.host); reflexivity.
Defined.

(** The title property, made with [required()], rejects [null]. *)
Lemma required_rejects_null_witness :
  fst (@Property.validate Example.host Example.title VNull VUndefined None Example.world0)
  = Ret (Some (Error "title is required" "title")).
Proof.
  refine (f_equal fst (@required_rejects_null Example.host Example.title (ArgBool true) VNull
                         VUndefined None Example.world0 _ _ _ _));
    try discriminate; vm_compute; reflexivity.
Defined.

(** Validating with the title property leaves the example heap as it is. *)
Lemma validate_reads_only_witness :
  store (snd (@Property.validate Example.host Example.title (VStr "a") VUndefined None
                Example.world1))
  = Example.heap1.
Proof.
  refine (proj1 (@validate_reads_only Example.host Example.title (VStr "a") VUndefined None
                   Example.world1 _ _)).
  - repeat constructor.
  - exact example_string_templates.
Defined.

(** A string that [nonempty] accepts is accepted by [required]. *)
Lemma nonempty_implies_required_witness :
  Validators.required (VStr "a") VUndefined (ArgBool true) = Ret true.
Proof.
  apply (nonempty_implies_required (VStr "a") VUndefined (ArgBool true));
    [discriminate | reflexivity].
Defined.

(** A number where a string is declared is rejected by [type]. *)
Lemma type_mismatch_reported_witness :
  fst (@Property.validate Example.host
         (Property.type (Property.constructor "nick" Example.schema) "string")
         (VNum 1) VUndefined None Example.world0)
  = Ret (Some (Error "nick is not valid" "nick")).
Proof.
  refine (f_equal fst (@type_mismatch_reported Example.host
                         (Property.type (Property.constructor "nick" Example.schema) "string")
                         "string" (VNum 1) VUndefined None Example.world0 _ _ _ _));
    vm_compute; reflexivity.
Defined.

(** The exception of the title property with [hex] is the TypeError of a
    name without a function. *)
Lemma validate_raises_only_witness :
  (exists i,
     i ∈ added Example.world1
           (snd (@Property.validate Example.host Example.title_hex (VStr "abc") VUndefined
                   None Example.world1)) /\
     inv_result i = Raise not_callable) \/
  (not_callable = not_callable /\
   exists ty e,
     obj_get ty (Property.registry Example.title_hex) = Some e /\
     resolve_validator Example.title_hex (store Example.world1) ty e = None).
Proof.
  apply (@validate_raises_only Example.host Example.title_hex (VStr "abc") VUndefined None
           Example.world1 not_callable).
  - apply steady_quiet. repeat constructor.
  - exact example_string_templates.
  - vm_compute. reflexivity.
Defined.

(** The validators table of the second example heap is the default one. *)
Lemma example_default_validators_1 :
  default_validators Example.heap1 (Schema.validators Example.schema).
Proof.
  intros name. unfold read_validator, Example.heap1. simpl.
  by rewrite lookup_singleton_eq.
Qed.

(** The title property never throws on the example heap. *)
Lemma configured_never_throws_witness :
  exists r,
    fst (@Property.validate Example.host Example.title (VNum 3) VUndefined None
           Example.world1) = Ret r /\
    store (snd (@Property.validate Example.host Example.title (VNum 3) VUndefined None
                  Example.world1)) = store Example.world1.
Proof.
  apply (@configured_never_throws Example.host Example.schema Example.title).
  - unfold Example.title.
    apply configured_length, configured_type, configured_required, configured_constructor.
  - exact example_default_validators_1.
  - exact example_string_templates.
  - reflexivity.
Defined.

(** A string has a numeric length: with a minimum of 2 the default [length]
    validator throws on no string. *)
Lemma length_raises_iff_witness :
  (exists x, Validators.length (VStr "a") VUndefined (ArgRules (Some 2) None) = Raise x) <->
  ArgRules (Some 2) None = ArgUndefined \/ ArgRules (Some 2) None = ArgNull \/
  (is_nullish (VStr "a") = true /\
   exists lo hi, ArgRules (Some 2) None = ArgRules lo hi /\
                 truthy_bound lo || truthy_bound hi = true).
Proof.
  apply (length_raises_iff (VStr "a") VUndefined (ArgRules (Some 2) None)). reflexivity.
Defined.

(** On the second example heap, which has no template for [length], an
    error for [length] is made from the [default] template. *)
Lemma empty_template_falls_back_witness :
  @Property._error Example.host Example.title "length" (ArgRules (Some 2) (Some 5)) "title"
                   Example.world1
  = (Ret (Error "validation failed" "title"), Example.world1).
Proof.
  refine (proj1 (@empty_template_falls_back Example.host Example.title "length"
                   (ArgRules (Some 2) (Some 5)) "title" Example.world1 _ _ _)
                "validation failed" _).
  - reflexivity.
  - vm_compute. reflexivity.
  - left. vm_compute. reflexivity.
  - vm_compute. reflexivity.
Defined.

(** A name added to the title property goes after its three names. *)
Lemma register_leaves_others_witness :
  Object_keys (Property.registry
                 (Property._register Example.title "hex" ArgNull (Some (Closure 0))))
  = ["required"; "type"; "length"; "hex"].
Proof.
  refine (proj1 (proj2 (register_leaves_others Example.title "hex" ArgNull (Some (Closure 0))))
                _ _); reflexivity.
Defined.

(** The title property on a string of length 3: the three validators are
    applied in the order of the specification. *)
Lemma validate_registration_order_witness :
  exists new,
    calls (snd (@Property.validate Example.host Example.title (VStr "abc") VUndefined None
                  Example.world0)) = new /\
    map inv_type new = ["required"; "type"; "length"].
Proof.
  destruct (@validate_registration_order Example.host Example.title (VStr "abc") VUndefined
              None Example.world0)
    as (new & Hc & _ & _ & Hall & _).
  { repeat constructor. }
  exists new. split; [exact Hc |]. apply Hall. vm_compute. reflexivity.
Defined.

(** The title property on a string that is too short: the call does not
    return [false], the check [length] having failed. *)
Lemma validate_reports_first_failure_witness :
  fst (@Property.validate Example.host Example.title (VStr "a") VUndefined None Example.world0)
  <> Ret None.
Proof.
  destruct (@validate_reports_first_failure Example.host Example.title (VStr "a") VUndefined
              None Example.world0)
    as (new & Hc & _ & _ & Hfail & _).
  { repeat constructor. }
  apply (Hfail (Invoke "length" (Builtin BLength) (VStr "a") VUndefined
                       (ArgRules (Some 2) (Some 5)) (Ret false))); [| reflexivity].
  vm_compute in Hc. subst new.
  do 2 apply list_elem_of_further. apply list_elem_of_here.
Defined.
